(** * AI-Video-Automation: audio operations and clip merging

    A shallow embedding of [src/audiosetting.py] (class [AudioEnhancer]),
    [src/videomerger.py] (class [VideoAudioMerger]) and
    [src/conectintro.py] (class [VideoMerger]).

    Conventions of the embedding.
    - A Python [float] is a real number; [int(x)] truncates towards zero,
      [x // y] is the floor of the quotient and raises on a zero divisor,
      [10 ** x] is [Rpower 10 x] and raises [OverflowError] beyond the
      largest double.  Rounding of the machine arithmetic is not part of
      the model; a quotient of two floats that the code computes is given
      by the host ([float_div]).
    - A one-dimensional numpy array is a [list R]; slicing, broadcasting
      and slice assignment follow numpy's rules for one dimension,
      including the shape errors they raise.
    - Python exceptions are values of [exn]; code that may raise lives in
      the [result] monad, and [try ... except Exception] is [try_except].
    - The media libraries (librosa, soundfile, moviepy) and the file
      system are collaborators: what the repository only calls is a field
      of a [host] record, what its arithmetic depends on (clip durations)
      is modelled by a symbolic clip with moviepy's duration rules. *)

From Stdlib Require Import Reals Lra Lia ZArith String Bool List.
Import ListNotations.

Local Open Scope R_scope.

(** ** Exceptions and the result monad *)

Inductive exn : Type :=
| ValueError
| TypeError
| ZeroDivisionError
| FileNotFoundError
| OSError
| IndexError
| OverflowError
| KeyboardInterrupt
| SystemExit.

(** [isinstance(e, Exception)]: the two last classes derive from
    [BaseException] only. *)
Definition is_Exception (e : exn) : bool :=
  match e with
  | KeyboardInterrupt | SystemExit => false
  | _ => true
  end.

Inductive result (A : Type) : Type :=
| Ok (a : A)
| Raise (e : exn).

Arguments Ok {A} a.
Arguments Raise {A} e.

Definition bind {A B : Type} (m : result A) (k : A -> result B) : result B :=
  match m with
  | Ok a => k a
  | Raise e => Raise e
  end.

Declare Scope result_scope.
Delimit Scope result_scope with result.
Notation "x <- m ;; k" := (bind m (fun x => k))
  (at level 61, m at next level, right associativity) : result_scope.
Notation "' pat <- m ;; k" := (bind m (fun x => match x with pat => k end))
  (at level 61, pat pattern, m at next level, right associativity) : result_scope.
Local Open Scope result_scope.

(** [try: body except Exception as e: handler(e)] *)
Definition try_except {A : Type} (body : result A) (handler : exn -> result A)
  : result A :=
  match body with
  | Ok a => Ok a
  | Raise e => if is_Exception e then handler e else Raise e
  end.

(** ** Python and numpy primitives *)

(** [int(x)] on a float. *)
Definition py_int (x : R) : Z :=
  if Rle_dec 0 x then Zfloor x else Zceil x.

(** [x // y] on floats. *)
Definition py_floordiv (x y : R) : result R :=
  if Req_dec_T y 0 then Raise ZeroDivisionError
  else Ok (IZR (Zfloor (x / y))).

(** The largest finite double, [(2 - 2^-52) * 2^1023]. *)
Definition float_max : R := (2 - / 2 ^ 52) * 2 ^ 1023.

(** [10 ** x] on a Python float: the power, or [OverflowError] when it
    exceeds the largest double. *)
Definition py_pow10 (x : R) : result R :=
  if Rle_dec (Rpower 10 x) float_max then Ok (Rpower 10 x)
  else Raise OverflowError.

(** Truth value of a float: zero is false. *)
Definition float_truthy (x : R) : bool :=
  if Req_dec_T x 0 then false else true.

Definition ndarray : Type := list R.

(** [y * factor] with a scalar factor. *)
Definition np_scale (y : ndarray) (factor : R) : ndarray :=
  map (fun s => s * factor) y.

(** [np.clip(y, lo, hi)] = [minimum(maximum(y, lo), hi)]. *)
Definition clip1 (lo hi s : R) : R := Rmin (Rmax s lo) hi.

Definition np_clip (y : ndarray) (lo hi : R) : ndarray :=
  map (clip1 lo hi) y.

Definition np_sum (y : ndarray) : R := fold_right Rplus 0 y.

Definition np_mean (y : ndarray) : R := np_sum y / INR (length y).

(** [y ** 2] *)
Definition np_square (y : ndarray) : ndarray := map (fun s => s * s) y.

Definition log10 (x : R) : R := ln x / ln 10.

(** [np.linspace(start, stop, num)]: a negative count is rejected, one
    point is [start], otherwise [num] evenly spaced points whose last
    one is [stop]. *)
Definition np_linspace (start stop : R) (num : Z) : result ndarray :=
  if (num <? 0)%Z then Raise ValueError
  else
    let n := Z.to_nat num in
    match n with
    | O => Ok []
    | S O => Ok [start]
    | _ => let step := (stop - start) / INR (n - 1) in
           Ok (map (fun i => start + INR i * step) (seq 0 n))
    end.

(** Elementwise product of two one-dimensional arrays with broadcasting:
    equal lengths, or one of them of length one. *)
Fixpoint zip_mul (a b : ndarray) : ndarray :=
  match a, b with
  | x :: a', y :: b' => x * y :: zip_mul a' b'
  | _, _ => []
  end.

Definition np_multiply (a b : ndarray) : result ndarray :=
  if (length a =? length b)%nat then Ok (zip_mul a b)
  else if (length a =? 1)%nat then Ok (map (fun y => hd 0 a * y) b)
  else if (length b =? 1)%nat then Ok (map (fun x => x * hd 0 b) a)
  else Raise ValueError.

(** Bounds of [y[start:stop]] for an array of length [len]: a negative
    index counts from the end, and both ends are clamped to [0, len]. *)
Definition adjust_index (len : nat) (i : Z) : nat :=
  if (i <? 0)%Z then Z.to_nat (Z.max 0 (i + Z.of_nat len))
  else Z.to_nat (Z.min i (Z.of_nat len)).

Definition slice_bounds (len : nat) (start stop : option Z) : nat * nat :=
  (match start with Some i => adjust_index len i | None => O end,
   match stop with Some i => adjust_index len i | None => len end).

(** [y[start:stop]] *)
Definition getslice (y : ndarray) (start stop : option Z) : ndarray :=
  let '(lo, hi) := slice_bounds (length y) start stop in
  firstn (hi - lo) (skipn lo y).

(** [y[start:stop] = v]: [v] must have the length of the slice, or length
    one (it is then repeated). *)
Definition setslice (y : ndarray) (start stop : option Z) (v : ndarray)
  : result ndarray :=
  let '(lo, hi) := slice_bounds (length y) start stop in
  let p := (hi - lo)%nat in
  if (length v =? p)%nat then Ok (firstn lo y ++ v ++ skipn (lo + p) y)
  else if (length v =? 1)%nat
       then Ok (firstn lo y ++ repeat (hd 0 v) p ++ skipn (lo + p) y)
       else Raise ValueError.

(** ** Python values handled by the audio pipeline *)

Inductive pyval : Type :=
| PNone
| PStr (s : string)
| PTuple (y : ndarray) (sr : Z).

(** [bool(v)]: [None] and the empty string are false, a pair is true. *)
Definition truthy (v : pyval) : bool :=
  match v with
  | PNone => false
  | PStr s => negb (String.eqb s "")
  | PTuple _ _ => true
  end.

(** ** Collaborators of [AudioEnhancer] *)

Record audio_host : Type := {
  (** [self.output_dir] *)
  output_dir : string;
  (** [librosa.load(path, sr=None, mono=True)] *)
  librosa_load : string -> result (ndarray * Z);
  (** [sf.write(path, y, sr)] *)
  sf_write : string -> ndarray -> Z -> result unit;
  (** [librosa.effects.time_stretch(y, rate=factor)] *)
  time_stretch : ndarray -> R -> result ndarray;
  (** [os.path.splitext(os.path.basename(p))[0]] *)
  base_name : string -> string;
  (** [os.path.join] *)
  path_join : string -> string -> string;
  (** text of a float and of an int inside an f-string *)
  str_float : R -> string;
  str_int : Z -> string;
  (** attributes of the instance other than the eight operations, as
      [getattr(self, name, None)] sees them: [None] when the attribute is
      missing or false, otherwise what calling it does *)
  other_attr : string -> option (pyval -> option R -> result pyval)
}.

Module AudioEnhancer.
Section Ops.

Context (h : audio_host).

Definition _out (input_path suffix : string) : string :=
  path_join h (output_dir h)
    (base_name h input_path ++ "_" ++ suffix ++ ".wav")%string.

Definition _load (path : pyval) : result (ndarray * Z) :=
  match path with
  | PStr p => librosa_load h p
  | _ => Raise TypeError
  end.

Definition _save (y : ndarray) (sr : Z) (path : string) : result unit :=
  sf_write h path y sr.

Definition _ensure_array (inp : pyval) : result (ndarray * Z) :=
  match inp with
  | PTuple y sr => Ok (y, sr)
  | _ => _load inp
  end.

(** [input_path if isinstance(input_path, str) else "audio"] *)
Definition name_of (inp : pyval) : string :=
  match inp with
  | PStr p => p
  | _ => "audio"%string
  end.

(** The common tail of every operation: write and return the path when
    [save], return the pair otherwise. *)
Definition finish (inp : pyval) (suffix : string) (y : ndarray) (sr : Z)
    (save : bool) : result pyval :=
  if save then
    let out := _out (name_of inp) suffix in
    _ <- _save y sr out ;;
    Ok (PStr out)
  else Ok (PTuple y sr).

Definition increase_volume (inp : pyval) (db_gain : R) (save : bool)
  : result pyval :=
  '(y, sr) <- _ensure_array inp ;;
  factor <- py_pow10 (db_gain / 20) ;;
  let y_out := np_clip (np_scale y factor) (-1) 1 in
  finish inp ("volup" ++ str_float h db_gain) y_out sr save.

Definition decrease_volume (inp : pyval) (db_reduce : R) (save : bool)
  : result pyval :=
  '(y, sr) <- _ensure_array inp ;;
  factor <- py_pow10 (db_reduce / 20) ;;
  let y_out := np_clip (np_scale y factor) (-1) 1 in
  finish inp ("voldown" ++ str_float h (Rabs db_reduce)) y_out sr save.

Definition fade_in (inp : pyval) (duration : R) (save : bool)
  : result pyval :=
  '(y, sr) <- _ensure_array inp ;;
  let n := py_int (IZR sr * duration) in
  fade_curve <- np_linspace 0 1 n ;;
  faded <- np_multiply (getslice y None (Some n)) fade_curve ;;
  y' <- setslice y None (Some n) faded ;;
  finish inp ("fadein" ++ str_float h duration) y' sr save.

Definition fade_out (inp : pyval) (duration : R) (save : bool)
  : result pyval :=
  '(y, sr) <- _ensure_array inp ;;
  let n := py_int (IZR sr * duration) in
  fade_curve <- np_linspace 1 0 n ;;
  faded <- np_multiply (getslice y (Some (- n)%Z) None) fade_curve ;;
  y' <- setslice y (Some (- n)%Z) None faded ;;
  finish inp ("fadeout" ++ str_float h duration) y' sr save.

Definition speed_change (inp : pyval) (factor : R) (save : bool)
  : result pyval :=
  '(y, sr) <- _ensure_array inp ;;
  y_fast <- time_stretch h y factor ;;
  finish inp ("speed" ++ str_float h factor) y_fast sr save.

Definition reverse (inp : pyval) (save : bool) : result pyval :=
  '(y, sr) <- _ensure_array inp ;;
  let y_rev := rev y in
  finish inp "reversed" y_rev sr save.

(** [end] is [None] or a float; [if end] and [end or 'end'] test its truth
    value. *)
Definition end_truthy (end_ : option R) : bool :=
  match end_ with
  | Some e => float_truthy e
  | None => false
  end.

Definition cut (inp : pyval) (start : R) (end_ : option R) (save : bool)
  : result pyval :=
  '(y, sr) <- _ensure_array inp ;;
  let start_idx := py_int (start * IZR sr) in
  let end_idx :=
    match end_ with
    | Some e => if float_truthy e then py_int (e * IZR sr)
                else Z.of_nat (length y)
    | None => Z.of_nat (length y)
    end in
  let y_cut := getslice y (Some start_idx) (Some end_idx) in
  let end_text :=
    match end_ with
    | Some e => if float_truthy e then str_float h e else "end"%string
    | None => "end"%string
    end in
  finish inp ("cut" ++ str_float h start ++ "-" ++ end_text) y_cut sr save.

(** Here [10 ** (gain / 20)] is a numpy power: it does not raise, and
    beyond the largest double it gives [inf].  The model covers the
    finite range, [Rpower 10 (gain / 20) <= float_max]; theorems about
    the samples returned state that bound. *)
Definition normalize (inp : pyval) (target_db : R) (save : bool)
  : result pyval :=
  '(y, sr) <- _ensure_array inp ;;
  let rms := sqrt (np_mean (np_square y)) in
  let current_db := 20 * log10 (rms + 1e-6) in
  let gain := target_db - current_db in
  let factor := Rpower 10 (gain / 20) in
  let y_norm := np_clip (np_scale y factor) (-1) 1 in
  finish inp ("norm" ++ str_int h (py_int target_db) ++ "dB") y_norm sr save.

End Ops.
End AudioEnhancer.

(** ** The pipeline: [apply_multiple] *)

(** What the module's logger receives, in order. *)
Inductive log_record : Type :=
| LogApplying (name : string) (val : option R)
| LogUnknown (name : string)
| LogFailed (name : string).

(** How the [for] loop of [apply_multiple] ends: by a [return] from inside
    the loop, or by exhausting the list with [temp] as it then stands. *)
Inductive loop_exit : Type :=
| Returned (v : pyval)
| Finished (temp : pyval).

(** A bound method as [apply_multiple] calls it: [fn(temp, save=False)]
    when the argument is [None], [fn(temp, val, save=False)] otherwise. *)
Definition bound_method : Type := pyval -> option R -> result pyval.

Definition action : Type := (string * option R)%type.

Module Pipeline.
Section Pipeline.

Context (h : audio_host).

Import AudioEnhancer.

(** The default of the second parameter is used when it is not passed. *)
Definition with_default (d : R) (val : option R) : R :=
  match val with
  | Some v => v
  | None => d
  end.

(** [getattr(self, name, None)] *)
Definition getattr_self (name : string) : option bound_method :=
  if String.eqb name "increase_volume" then
    Some (fun temp val => increase_volume h temp (with_default 3 val) false)
  else if String.eqb name "decrease_volume" then
    Some (fun temp val => decrease_volume h temp (with_default (-6) val) false)
  else if String.eqb name "fade_in" then
    Some (fun temp val => fade_in h temp (with_default 2 val) false)
  else if String.eqb name "fade_out" then
    Some (fun temp val => fade_out h temp (with_default 2 val) false)
  else if String.eqb name "speed_change" then
    Some (fun temp val => speed_change h temp (with_default 1.25 val) false)
  else if String.eqb name "reverse" then
    (* reverse(temp, val, save=False) binds [save] twice *)
    Some (fun temp val =>
            match val with
            | None => reverse h temp false
            | Some _ => Raise TypeError
            end)
  else if String.eqb name "cut" then
    Some (fun temp val => cut h temp (with_default 0 val) None false)
  else if String.eqb name "normalize" then
    Some (fun temp val => normalize h temp (with_default (-1) val) false)
  else other_attr h name.

(** The body of the [for] loop, with the records it logs. *)
Fixpoint for_actions (temp : pyval) (actions : list action)
  : list log_record * result loop_exit :=
  match actions with
  | [] => ([], Ok (Finished temp))
  | (name, val) :: rest =>
      match getattr_self name with
      | None => ([LogUnknown name], Ok (Returned PNone))
      | Some fn =>
          match fn temp val with
          | Raise e => ([LogApplying name val], Raise e)
          | Ok res =>
              if truthy res then
                let '(l, r) := for_actions res rest in
                (LogApplying name val :: l, r)
              else ([LogApplying name val; LogFailed name], Ok (Returned PNone))
          end
      end
  end.

Definition apply_multiple (input_path : pyval) (actions : list action)
    (save : bool) : list log_record * result pyval :=
  let '(l, r) := for_actions input_path actions in
  (l,
   ex <- r ;;
   match ex with
   | Returned v => Ok v
   | Finished temp =>
       if save then
         '(y, sr) <- _ensure_array h temp ;;
         let out := _out h (name_of input_path) "pipeline" in
         _ <- _save h y sr out ;;
         Ok (PStr out)
       else Ok temp
   end).

End Pipeline.
End Pipeline.

(** ** Clips of the compositing library *)

(** An audio clip, by the way it was built. *)
#[warnings="-register-all"] Inductive AudioClip : Type :=
| AudioArray (y : ndarray) (fps : Z) (dur : R)
| AudioFile (path : string) (dur : R)
| Concatenated (clips : list AudioClip)
| Subclipped (c : AudioClip) (t_start t_end : R).

(** [clip.duration]: the quotient stored at construction for an array,
    the sum of the parts for a concatenation, [t_end - t_start] for a
    subclip. *)
Fixpoint duration (c : AudioClip) : R :=
  match c with
  | AudioArray _ _ d => d
  | AudioFile _ d => d
  | Concatenated cs => fold_right (fun c acc => duration c + acc) 0 cs
  | Subclipped _ ts te => te - ts
  end.

(** [isinstance(clip, AudioFileClip)]: a clip read from a file, or cut
    out of one ([subclip] returns a copy of the same class). *)
Fixpoint is_AudioFileClip (c : AudioClip) : bool :=
  match c with
  | AudioFile _ _ => true
  | Subclipped c' _ _ => is_AudioFileClip c'
  | _ => false
  end.

(** [AudioArrayClip(y, fps=sr)]: the duration is the float quotient
    [1.0 * len(y) / fps], [float_quotient] below; then the constructor
    reads frame 0 to count the channels, which an empty array does not
    have. *)
Definition AudioArrayClip (float_quotient : R -> R -> R) (y : ndarray)
    (fps : Z) : result AudioClip :=
  if (fps =? 0)%Z then Raise ZeroDivisionError
  else match y with
       | [] => Raise IndexError
       | _ => Ok (AudioArray y fps (float_quotient (INR (length y)) (IZR fps)))
       end.

(** [concatenate_audioclips(clips)] takes a maximum over the clips and so
    rejects an empty list. *)
Definition concatenate_audioclips (clips : list AudioClip) : result AudioClip :=
  match clips with
  | [] => Raise ValueError
  | _ => Ok (Concatenated clips)
  end.

(** [clip.subclip(t_start, t_end)]: a negative time counts from the end of
    the clip, and a start beyond the end is rejected. *)
Definition subclip (c : AudioClip) (t_start t_end : R) : result AudioClip :=
  let ts := if Rlt_dec t_start 0 then duration c + t_start else t_start in
  if Rlt_dec (duration c) ts then Raise ValueError
  else
    let te := if Rlt_dec t_end 0 then duration c + t_end else t_end in
    Ok (Subclipped c ts te).

Record VideoClip : Type := {
  v_source : string;
  v_duration : R;
  v_audio : option AudioClip
}.

(** [video.set_audio(audio)] replaces the audio track. *)
Definition set_audio (video : VideoClip) (audio : AudioClip) : VideoClip :=
  {| v_source := v_source video;
     v_duration := v_duration video;
     v_audio := Some audio |}.

Record video_host : Type := {
  (** [self.output_dir] *)
  video_output_dir : string;
  (** [x / y] on two floats, [y] not zero: the quotient as a double *)
  float_div : R -> R -> R;
  os_path_join : string -> string -> string;
  os_path_exists : string -> bool;
  (** [VideoFileClip(path)] *)
  VideoFileClip : string -> result VideoClip;
  (** the duration [AudioFileClip(path)] reads from the file *)
  audio_file_duration : string -> result R;
  (** [clip.write_videofile(path, fps=..., temp_audiofile=...)] *)
  write_videofile : VideoClip -> string -> option Z -> option string -> result unit;
  video_close : VideoClip -> result unit;
  audio_close : AudioClip -> result unit;
  (** [clip.resize(newsize=(w, h))], [clip.set_fps(fps)] *)
  resize : VideoClip -> Z * Z -> result VideoClip;
  set_fps : VideoClip -> Z -> result VideoClip;
  crossfadeout : VideoClip -> R -> result VideoClip;
  crossfadein : VideoClip -> R -> result VideoClip;
  (** [concatenate_videoclips(clips, method="compose")] *)
  concatenate_videoclips : list VideoClip -> result VideoClip
}.

Inductive video_input : Type :=
| VPath (p : string)
| VClip (c : VideoClip).

(** What a merge returns: [None], a path, or a clip. *)
Inductive merged : Type :=
| MNone
| MPath (p : string)
| MClip (c : VideoClip).

Module VideoAudioMerger.

(** [audio_input]: a [(y, sr)] pair, a clip object, or a path. *)
Inductive audio_input : Type :=
| ATuple (y : ndarray) (sr : Z)
| AClip (c : AudioClip)
| APath (p : string).

(** The "Sync Durations" step of [merge]. *)
Definition sync_durations (v_dur : R) (audio : AudioClip) : result AudioClip :=
  let a_dur := duration audio in
  if Rlt_dec a_dur v_dur then
    q <- py_floordiv v_dur a_dur ;;
    let loop_count := (py_int q + 1)%Z in
    let audio_clips := repeat audio (Z.to_nat loop_count) in
    looped <- concatenate_audioclips audio_clips ;;
    subclip looped 0 v_dur
  else if Rlt_dec v_dur a_dur then subclip audio 0 v_dur
  else Ok audio.

Section Merge.

Context (h : video_host).

Definition load_audio (audio_input_ : audio_input) : result AudioClip :=
  match audio_input_ with
  | ATuple y sr => AudioArrayClip (float_div h) y sr
  | AClip c =>
      (* a clip that is not an [AudioFileClip] reaches
         [os.path.exists(audio_input)], which rejects it *)
      if is_AudioFileClip c then Ok c else Raise TypeError
  | APath p =>
      if os_path_exists h p then
        d <- audio_file_duration h p ;;
        Ok (AudioFile p d)
      else Raise FileNotFoundError
  end.

(** The statements inside [try]. *)
Definition merge_body (video_input_ : video_input) (audio_input_ : audio_input)
    (output_name : string) (save : bool) (fps : option Z) : result merged :=
  video <- match video_input_ with
           | VClip c => Ok c
           | VPath p => VideoFileClip h p
           end ;;
  audio <- load_audio audio_input_ ;;
  audio' <- sync_durations (v_duration video) audio ;;
  let final_video := set_audio video audio' in
  let output_path := os_path_join h (video_output_dir h) output_name in
  if save then
    _ <- write_videofile h final_video output_path fps None ;;
    _ <- video_close h video ;;
    _ <- try_except (audio_close h audio') (fun _ => Ok tt) ;;
    _ <- video_close h final_video ;;
    Ok (MPath output_path)
  else Ok (MClip final_video).

Definition merge (video_input_ : video_input) (audio_input_ : audio_input)
    (output_name : string) (save : bool) (fps : option Z) : result merged :=
  try_except (merge_body video_input_ audio_input_ output_name save fps)
             (fun _ => Ok MNone).

End Merge.
End VideoAudioMerger.

Module VideoMerger.
Section Merge.

Context (h : video_host).

Definition _out (suffix : string) : string :=
  os_path_join h (video_output_dir h) (suffix ++ ".mp4")%string.

Definition _normalize (clip : VideoClip) : result VideoClip :=
  let target_resolution := (1280, 720)%Z in
  resized <- resize h clip target_resolution ;;
  set_fps h resized 30%Z.

(** [isinstance(p, str) and not os.path.exists(p)] *)
Definition missing (p : video_input) : bool :=
  match p with
  | VPath s => negb (os_path_exists h s)
  | VClip _ => false
  end.

Definition load_clip (p : video_input) : result VideoClip :=
  match p with
  | VClip c => Ok c
  | VPath s => VideoFileClip h s
  end.

(** The statements inside [try]. *)
Definition merge_body (intro_path main_path : video_input) (crossfade : R)
    (save : bool) : result merged :=
  if missing intro_path then Ok MNone
  else if missing main_path then Ok MNone
  else
    intro_clip <- load_clip intro_path ;;
    main_clip <- load_clip main_path ;;
    intro_clip <- _normalize intro_clip ;;
    main_clip <- _normalize main_clip ;;
    merged_clip <-
      (if Rlt_dec 0 crossfade then
         a <- crossfadeout h intro_clip crossfade ;;
         b <- crossfadein h main_clip crossfade ;;
         concatenate_videoclips h [a; b]
       else concatenate_videoclips h [intro_clip; main_clip]) ;;
    let output := _out "final_merged" in
    if save then
      _ <- write_videofile h merged_clip output None
             (Some (os_path_join h (video_output_dir h) "temp_audio.m4a")) ;;
      _ <- video_close h intro_clip ;;
      _ <- video_close h main_clip ;;
      _ <- video_close h merged_clip ;;
      Ok (MPath output)
    else Ok (MClip merged_clip).

Definition merge (intro_path main_path : video_input) (crossfade : R)
    (save : bool) : result merged :=
  try_except (merge_body intro_path main_path crossfade save)
             (fun _ => Ok MNone).

End Merge.
End VideoMerger.

(** ** What "in sequence, each result fed to the next" means

    [feeds h v actions out]: starting from [v], every action of the list
    names an attribute, its call returns a true value, and that value is
    the input of the next action; [out] is the last value. *)
Inductive feeds (h : audio_host) : pyval -> list action -> pyval -> Prop :=
| feeds_nil v : feeds h v [] v
| feeds_cons v name val fn res rest out :
    Pipeline.getattr_self h name = Some fn ->
    fn v val = Ok res ->
    truthy res = true ->
    feeds h res rest out ->
    feeds h v ((name, val) :: rest) out.

(** The records logged by a run in which every action is applied. *)
Definition applying (actions : list action) : list log_record :=
  map (fun a => LogApplying (fst a) (snd a)) actions.

(** ** The menu layer ([VideoProcessingApp] in [src/__init__.py]) *)

(** What the menu asks of the console and the file system.  The text
    operations are Python's own string methods and [os.path] functions. *)
Record console_host : Type := {
  (** [os.path.exists] *)
  app_path_exists : string -> bool;
  (** the line without surrounding double quotes and white space:
      [strip] of the quote character, then [strip()] *)
  strip_quotes : string -> string;
  (** [os.path.splitext(path)[1].lower()] *)
  ext_lower : string -> string;
  (** [line.strip().lower()] *)
  strip_lower : string -> string
}.

Definition audio_exts : list string :=
  [".mp3"; ".wav"; ".m4a"; ".flac"]%string.

Definition video_exts : list string :=
  [".mp4"; ".mov"; ".avi"; ".mkv"]%string.

(** [s in l] for a list of strings. *)
Definition in_list (s : string) (l : list string) : bool :=
  existsb (String.eqb s) l.

(** [get_valid_path(prompt, expected_type)], reading the lines the user
    types from [inputs]: it returns the confirmed path and the lines not
    yet read, or [None] when the input ends first ([input()] raises
    [EOFError]).  What it prints is left out. *)
Fixpoint get_valid_path (c : console_host) (expected_type : string)
    (inputs : list string) : option (string * list string) :=
  match inputs with
  | [] => None
  | line :: rest =>
      let path := strip_quotes c line in
      if negb (app_path_exists c path) then get_valid_path c expected_type rest
      else
        let ext := ext_lower c path in
        if (String.eqb expected_type "audio" && negb (in_list ext audio_exts))%bool
        then get_valid_path c expected_type rest
        else if (String.eqb expected_type "video"
                 && negb (in_list ext video_exts))%bool
        then get_valid_path c expected_type rest
        else
          match rest with
          | [] => None
          | answer :: rest' =>
              if String.eqb (strip_lower c answer) "y" then Some (path, rest')
              else get_valid_path c expected_type rest'
          end
  end.

(** How one round of [audio_menu] ends, for a choice other than ["0"]:
    a file was saved, the choice was not one of the menu, or an exception
    was caught and reported. *)
Inductive menu_outcome : Type :=
| Saved (out : pyval)
| InvalidChoice
| Reported (e : exn).

(** The statements under [try] in [audio_menu].  [speed] is what
    [float(input(...))] gives when choice 5 reads the factor. *)
Definition audio_menu_try (h : audio_host) (speed : result R)
    (choice audio_path : string) : result menu_outcome :=
  if String.eqb choice "1" then
    out <- AudioEnhancer.increase_volume h (PStr audio_path) 5 true ;;
    Ok (Saved out)
  else if String.eqb choice "2" then
    out <- AudioEnhancer.decrease_volume h (PStr audio_path) (-5) true ;;
    Ok (Saved out)
  else if String.eqb choice "3" then
    out <- AudioEnhancer.normalize h (PStr audio_path) (-14) true ;;
    Ok (Saved out)
  else if String.eqb choice "4" then
    tmp <- AudioEnhancer.fade_in h (PStr audio_path) 2 false ;;
    out <- AudioEnhancer.fade_out h tmp 2 true ;;
    Ok (Saved out)
  else if String.eqb choice "5" then
    factor <- speed ;;
    out <- AudioEnhancer.speed_change h (PStr audio_path) factor true ;;
    Ok (Saved out)
  else Ok InvalidChoice.

Definition audio_menu_step (h : audio_host) (speed : result R)
    (choice audio_path : string) : result menu_outcome :=
  try_except (audio_menu_try h speed choice audio_path)
             (fun e => Ok (Reported e)).

(** The names of the eight operations of [AudioEnhancer]. *)
Definition operation_names : list string :=
  ["increase_volume"; "decrease_volume"; "fade_in"; "fade_out";
   "speed_change"; "reverse"; "cut"; "normalize"]%string.

(** ** Concrete collaborators used by the examples *)

Definition example_audio_host : audio_host := {|
  output_dir := "enhanced_audio";
  librosa_load := fun _ => Raise FileNotFoundError;
  sf_write := fun _ _ _ => Ok tt;
  time_stretch := fun y _ => Ok y;
  base_name := fun p => p;
  path_join := fun a b => (a ++ "/" ++ b)%string;
  str_float := fun _ => "0.0"%string;
  str_int := fun _ => "0"%string;
  other_attr := fun name =>
    if String.eqb name "output_dir" then Some (fun _ _ => Raise TypeError)
    else if String.eqb name "silent" then Some (fun _ _ => Ok PNone)
    else None
|}.

Definition example_video_host : video_host := {|
  video_output_dir := "output_videos";
  float_div := Rdiv;
  os_path_join := fun a b => (a ++ "/" ++ b)%string;
  os_path_exists := fun _ => true;
  VideoFileClip := fun _ => Raise OSError;
  audio_file_duration := fun _ => Raise OSError;
  write_videofile := fun _ _ _ _ => Ok tt;
  video_close := fun _ => Ok tt;
  audio_close := fun _ => Ok tt;
  resize := fun c _ => Ok c;
  set_fps := fun c _ => Ok c;
  crossfadeout := fun c _ => Ok c;
  crossfadein := fun c _ => Ok c;
  concatenate_videoclips := fun cs =>
    match cs with
    | [] => Raise ValueError
    | c :: _ => Ok c
    end
|}.

(** A one-second silent video. *)
Definition one_second_video : VideoClip :=
  {| v_source := "color"; v_duration := 1; v_audio := None |}.

(** An enhancer whose files load: ["short.wav"] holds three samples at
    rate 2, any other path three samples at rate 1. *)
Definition loading_audio_host : audio_host := {|
  output_dir := "enhanced_audio";
  librosa_load := fun p =>
    if String.eqb p "short.wav" then Ok ([1; 1; 1], 2%Z)
    else Ok ([1; 1; 1], 1%Z);
  sf_write := fun _ _ _ => Ok tt;
  time_stretch := fun y _ => Ok y;
  base_name := fun p => p;
  path_join := fun a b => (a ++ "/" ++ b)%string;
  str_float := fun _ => "2.0"%string;
  str_int := fun _ => "0"%string;
  other_attr := fun _ => None
|}.

(** A compositing library in which closing an audio clip fails. *)
Definition failing_close_host : video_host := {|
  video_output_dir := "output_videos";
  float_div := Rdiv;
  os_path_join := fun a b => (a ++ "/" ++ b)%string;
  os_path_exists := fun _ => true;
  VideoFileClip := fun _ => Raise OSError;
  audio_file_duration := fun _ => Raise OSError;
  write_videofile := fun _ _ _ _ => Ok tt;
  video_close := fun _ => Ok tt;
  audio_close := fun _ => Raise OSError;
  resize := fun c _ => Ok c;
  set_fps := fun c _ => Ok c;
  crossfadeout := fun c _ => Ok c;
  crossfadein := fun c _ => Ok c;
  concatenate_videoclips := fun cs =>
    match cs with
    | [] => Raise ValueError
    | c :: _ => Ok c
    end
|}.

(** A compositing library on a disk where no file exists. *)
Definition empty_disk_host : video_host := {|
  video_output_dir := "merged_videos";
  float_div := Rdiv;
  os_path_join := fun a b => (a ++ "/" ++ b)%string;
  os_path_exists := fun _ => false;
  VideoFileClip := fun _ => Raise OSError;
  audio_file_duration := fun _ => Raise OSError;
  write_videofile := fun _ _ _ _ => Ok tt;
  video_close := fun _ => Ok tt;
  audio_close := fun _ => Ok tt;
  resize := fun c _ => Ok c;
  set_fps := fun c _ => Ok c;
  crossfadeout := fun c _ => Ok c;
  crossfadein := fun c _ => Ok c;
  concatenate_videoclips := fun cs =>
    match cs with
    | [] => Raise ValueError
    | c :: _ => Ok c
    end
|}.

(** A console on which only ["song.mp3"] and ["notes.txt"] exist; the text
    operations are those of plain lower-case input. *)
Definition example_console : console_host := {|
  app_path_exists := fun p =>
    (String.eqb p "song.mp3" || String.eqb p "notes.txt")%bool;
  strip_quotes := fun s => s;
  ext_lower := fun p =>
    if String.eqb p "song.mp3" then ".mp3"%string else ".txt"%string;
  strip_lower := fun s => s
|}.

(** * Properties *)

(** ** Arithmetic of the primitives *)

Lemma bind_assoc {A B C : Type} (m : result A) (f : A -> result B)
    (g : B -> result C) :
  bind (bind m f) g = bind m (fun x => bind (f x) g).
Proof. now destruct m. Qed.

Lemma py_int_IZR (z : Z) : py_int (IZR z) = z.
Proof.
  unfold py_int. destruct (Rle_dec 0 (IZR z)).
  - apply ZfloorZ.
  - apply Zceil_eq. lra.
Qed.

Lemma py_int_nonneg (x : R) : 0 <= x -> py_int x = Zfloor x.
Proof.
  intros Hx. unfold py_int. destruct (Rle_dec 0 x); [reflexivity | contradiction].
Qed.

Lemma clip1_range (s : R) : -1 <= clip1 (-1) 1 s <= 1.
Proof.
  unfold clip1, Rmin, Rmax.
  destruct (Rle_dec s (-1)); destruct (Rle_dec _ 1); lra.
Qed.

Lemma clip1_inside (s : R) : -1 <= s <= 1 -> clip1 (-1) 1 s = s.
Proof.
  intros Hs. unfold clip1, Rmin, Rmax.
  destruct (Rle_dec s (-1)); destruct (Rle_dec _ 1); lra.
Qed.

Lemma clip1_idempotent (s : R) : clip1 (-1) 1 (clip1 (-1) 1 s) = clip1 (-1) 1 s.
Proof. apply clip1_inside, clip1_range. Qed.

Lemma Rpower10_pos (x : R) : 0 < Rpower 10 x.
Proof. unfold Rpower. apply exp_pos. Qed.

Lemma Rpower10_inverse (x : R) : Rpower 10 x * Rpower 10 (- x) = 1.
Proof.
  rewrite <- Rpower_plus.
  replace (x + - x) with 0 by lra.
  apply Rpower_O. lra.
Qed.

Lemma ln_10_pos : 0 < ln 10.
Proof. rewrite <- ln_1. apply ln_increasing; lra. Qed.

Lemma Rpower10_negative (x : R) : x < 0 -> Rpower 10 x < 1.
Proof.
  intros Hx. unfold Rpower. rewrite <- exp_0.
  apply exp_increasing. pose proof ln_10_pos. nra.
Qed.

Lemma gain_then_clip (y : ndarray) (f : R) :
  np_clip (np_scale y f) (-1) 1 = map (fun s => Rmin (Rmax (s * f) (-1)) 1) y.
Proof.
  unfold np_clip, np_scale. rewrite map_map. reflexivity.
Qed.

(** ** Volume *)

Lemma float_max_ge_1 : 1 <= float_max.
Proof.
  unfold float_max.
  assert (Ha : 1 <= 2 ^ 52) by (apply pow_R1_Rle; lra).
  assert (Hb : 1 <= 2 ^ 1023) by (apply pow_R1_Rle; lra).
  assert (Hi : 0 < / 2 ^ 52) by (apply Rinv_0_lt_compat; lra).
  assert (Hm : / 2 ^ 52 * 2 ^ 52 = 1) by (apply Rinv_l; lra).
  assert (Hc : / 2 ^ 52 <= 1) by nra.
  nra.
Qed.

(** [10^350] is beyond the largest double. *)
Lemma pow10_350_overflows : float_max < Rpower 10 (7000 / 20).
Proof.
  replace (7000 / 20) with (INR 350) by (rewrite INR_IZR_INZ; cbn; lra).
  rewrite Rpower_pow by lra.
  apply Rlt_trans with (2 * 2 ^ 1023).
  - unfold float_max.
    assert (Hb : 1 <= 2 ^ 1023) by (apply pow_R1_Rle; lra).
    assert (Hi : 0 < / 2 ^ 52) by (apply Rinv_0_lt_compat, pow_lt; lra).
    nra.
  - change 2 with (IZR 2). change 10 with (IZR 10).
    rewrite !pow_IZR, <- mult_IZR.
    apply IZR_lt. vm_compute. reflexivity.
Qed.

Lemma py_pow10_finite (x : R) :
  Rpower 10 x <= float_max -> py_pow10 x = Ok (Rpower 10 x).
Proof.
  intros Hx. unfold py_pow10.
  destruct (Rle_dec (Rpower 10 x) float_max); [reflexivity | contradiction].
Qed.

Lemma py_pow10_overflow (x : R) :
  float_max < Rpower 10 x -> py_pow10 x = Raise OverflowError.
Proof.
  intros Hx. unfold py_pow10.
  destruct (Rle_dec (Rpower 10 x) float_max); [lra | reflexivity].
Qed.

Lemma float_max_ge_10 : 10 <= float_max.
Proof.
  unfold float_max.
  assert (Ha : 1 <= 2 ^ 52) by (apply pow_R1_Rle; lra).
  assert (Hi : 0 < / 2 ^ 52) by (apply Rinv_0_lt_compat; lra).
  assert (Hm : / 2 ^ 52 * 2 ^ 52 = 1) by (apply Rinv_l; lra).
  assert (Hc : / 2 ^ 52 <= 1) by nra.
  assert (Hb : 2 ^ 4 <= 2 ^ 1023) by (apply Rle_pow; [lra | lia]).
  assert (H16 : 2 ^ 4 = 16) by (cbn; lra).
  nra.
Qed.

(** Gains up to 20 dB are representable. *)
Lemma pow10_small_finite (x : R) : x <= 1 -> Rpower 10 x <= float_max.
Proof.
  intros Hx. apply Rle_trans with 10; [| exact float_max_ge_10].
  rewrite <- (Rpower_1 10) at 2 by lra.
  apply Rle_Rpower; lra.
Qed.

(** A gain that lowers the level is always representable. *)
Lemma pow10_nonpositive_finite (x : R) : x <= 0 -> Rpower 10 x <= float_max.
Proof. intros Hx. apply pow10_small_finite. lra. Qed.

Section Volume.

Context (h : audio_host).

Import AudioEnhancer.

Lemma increase_volume_value (y : ndarray) (sr : Z) (db : R) :
  Rpower 10 (db / 20) <= float_max ->
  increase_volume h (PTuple y sr) db false
  = Ok (PTuple (np_clip (np_scale y (Rpower 10 (db / 20))) (-1) 1) sr).
Proof.
  intros Hf. unfold increase_volume, _ensure_array. cbn [bind].
  now rewrite py_pow10_finite.
Qed.

Lemma decrease_volume_value (y : ndarray) (sr : Z) (db : R) :
  Rpower 10 (db / 20) <= float_max ->
  decrease_volume h (PTuple y sr) db false
  = Ok (PTuple (np_clip (np_scale y (Rpower 10 (db / 20))) (-1) 1) sr).
Proof.
  intros Hf. unfold decrease_volume, _ensure_array. cbn [bind].
  now rewrite py_pow10_finite.
Qed.

(** C7, as the code has it.  While [10^(db/20)] is a finite double,
    [increase_volume] and [decrease_volume] on a (buffer, rate) pair both
    return the buffer in which each sample [s] has become
    [min(max(s * 10^(db/20), -1), 1)], whatever the sign of [db], and
    every sample of the result lies in [-1, 1]; beyond the largest double
    both raise [OverflowError]. *)
Theorem volume_scales_then_clips (y : ndarray) (sr : Z) (db : R) :
  let y_out := map (fun s => Rmin (Rmax (s * Rpower 10 (db / 20)) (-1)) 1) y in
  (Rpower 10 (db / 20) <= float_max ->
   increase_volume h (PTuple y sr) db false = Ok (PTuple y_out sr)
   /\ decrease_volume h (PTuple y sr) db false = Ok (PTuple y_out sr)
   /\ Forall (fun s => -1 <= s <= 1) y_out)
  /\ (float_max < Rpower 10 (db / 20) ->
      increase_volume h (PTuple y sr) db false = Raise OverflowError
      /\ decrease_volume h (PTuple y sr) db false = Raise OverflowError).
Proof.
  intros y_out. subst y_out. split.
  - intros Hf.
    rewrite increase_volume_value, decrease_volume_value by exact Hf.
    rewrite gain_then_clip.
    repeat split; try reflexivity.
    apply Forall_forall. intros s Hs.
    apply in_map_iff in Hs. destruct Hs as [s0 [<- _]].
    apply (clip1_range (s0 * Rpower 10 (db / 20))).
  - intros Hover.
    unfold increase_volume, decrease_volume, _ensure_array. cbn [bind].
    rewrite py_pow10_overflow by exact Hover. split; reflexivity.
Qed.

(** C5, as the code has it.  While [10^(g/20)] and [10^(-g/20)] are
    finite doubles, lowering a buffer by [g] dB and raising the result by
    [-g] dB gives back, at every position where the lowered sample was
    not clipped, the original sample clipped to [-1, 1], hence the
    original sample itself when it lies in [-1, 1]. *)
Theorem volume_round_trip (y : ndarray) (sr : Z) (g : R) :
  Rpower 10 (g / 20) <= float_max ->
  Rpower 10 (- g / 20) <= float_max ->
  exists y1 y2,
    decrease_volume h (PTuple y sr) g false = Ok (PTuple y1 sr)
    /\ increase_volume h (PTuple y1 sr) (- g) false = Ok (PTuple y2 sr)
    /\ length y2 = length y
    /\ forall i, (i < length y)%nat ->
         let s := nth i y 0 in
         -1 <= s * Rpower 10 (g / 20) <= 1 ->
         nth i y2 0 = Rmin (Rmax s (-1)) 1
         /\ (-1 <= s <= 1 -> nth i y2 0 = s).
Proof.
  intros Hg Hg'.
  set (f := Rpower 10 (g / 20)).
  set (f' := Rpower 10 (- g / 20)).
  exists (np_clip (np_scale y f) (-1) 1).
  exists (np_clip (np_scale (np_clip (np_scale y f) (-1) 1) f') (-1) 1).
  split; [now apply decrease_volume_value |].
  split; [now apply increase_volume_value |].
  split.
  - unfold np_clip, np_scale. now rewrite !length_map.
  - intros i Hi s Hmid.
    assert (Hff : f * f' = 1).
    { unfold f, f'. replace (- g / 20) with (- (g / 20)) by lra.
      apply Rpower10_inverse. }
    assert (Hnth : nth i (np_clip (np_scale (np_clip (np_scale y f) (-1) 1) f') (-1) 1) 0
                   = clip1 (-1) 1 (clip1 (-1) 1 (s * f) * f')).
    { unfold np_clip, np_scale. rewrite !map_map.
      rewrite (nth_indep _ 0
                 ((fun x => clip1 (-1) 1 (clip1 (-1) 1 (x * f) * f')) 0))
        by now rewrite length_map.
      now rewrite (map_nth (fun x => clip1 (-1) 1 (clip1 (-1) 1 (x * f) * f'))). }
    rewrite Hnth. fold f in Hmid.
    rewrite (clip1_inside (s * f)) by exact Hmid.
    replace (s * f * f') with s by (rewrite Rmult_assoc, Hff; lra).
    split; [reflexivity |].
    intros Hs. now apply clip1_inside.
Qed.

End Volume.

(** The theorem on [[0.5]] at -6 dB. *)
Lemma volume_scales_then_clips_witness :
  AudioEnhancer.increase_volume example_audio_host (PTuple [1 / 2] 22050)
    (-6) false
  = Ok (PTuple [Rmin (Rmax (1 / 2 * Rpower 10 (-6 / 20)) (-1)) 1] 22050).
Proof.
  apply (proj1 (volume_scales_then_clips example_audio_host [1 / 2] 22050 (-6))).
  apply pow10_nonpositive_finite. lra.
Defined.

(** C7 fails as stated at 7000 dB: [10 ** 350.0] does not fit a double,
    Python raises [OverflowError], and neither function returns a
    buffer. *)
Lemma volume_overflows :
  AudioEnhancer.increase_volume example_audio_host (PTuple [1 / 2] 22050)
    7000 false = Raise OverflowError
  /\ AudioEnhancer.decrease_volume example_audio_host (PTuple [1 / 2] 22050)
       7000 false = Raise OverflowError.
Proof.
  unfold AudioEnhancer.increase_volume, AudioEnhancer.decrease_volume,
    AudioEnhancer._ensure_array.
  cbn [bind]. rewrite (py_pow10_overflow _ pow10_350_overflows).
  split; reflexivity.
Qed.

(** The round trip on the one-sample buffer [[0.5]] with [g = -6]: the
    lowered sample is not clipped and the sample comes back. *)
Lemma volume_round_trip_witness :
  exists y1 y2,
    AudioEnhancer.decrease_volume example_audio_host
      (PTuple [1 / 2] 22050) (-6) false = Ok (PTuple y1 22050)
    /\ AudioEnhancer.increase_volume example_audio_host
         (PTuple y1 22050) (- -6) false = Ok (PTuple y2 22050)
    /\ nth 0 y2 0 = 1 / 2.
Proof.
  assert (Hup : Rpower 10 (- -6 / 20) <= float_max)
    by (apply pow10_small_finite; lra).
  destruct (volume_round_trip example_audio_host [1 / 2] 22050 (-6))
    as [y1 [y2 [H1 [H2 [_ H]]]]].
  { apply pow10_nonpositive_finite. lra. }
  { exact Hup. }
  exists y1, y2. split; [exact H1 | split; [exact H2 |]].
  assert (Hp : 0 < Rpower 10 (-6 / 20) < 1).
  { split; [apply Rpower10_pos | apply Rpower10_negative; lra]. }
  apply (H O).
  - cbn. lia.
  - cbn [nth]. nra.
  - cbn [nth]. lra.
Defined.

(** C5 fails as stated at [g = -7000]: lowering by -7000 dB returns a
    buffer, and raising it by 7000 dB raises [OverflowError]. *)
Lemma volume_round_trip_overflows :
  exists y1,
    AudioEnhancer.decrease_volume example_audio_host
      (PTuple [1 / 2] 22050) (-7000) false = Ok (PTuple y1 22050)
    /\ AudioEnhancer.increase_volume example_audio_host
         (PTuple y1 22050) (- -7000) false = Raise OverflowError.
Proof.
  eexists. split.
  - unfold AudioEnhancer.decrease_volume, AudioEnhancer._ensure_array.
    cbn [bind]. rewrite py_pow10_finite; [reflexivity |].
    apply pow10_nonpositive_finite. lra.
  - unfold AudioEnhancer.increase_volume, AudioEnhancer._ensure_array.
    cbn [bind].
    replace (- -7000 / 20) with (7000 / 20) by lra.
    now rewrite (py_pow10_overflow _ pow10_350_overflows).
Qed.

(** ** Reverse and cut *)

Section ReverseCut.

Context (h : audio_host).

Import AudioEnhancer.

(** C9. Reversing a buffer and reversing the result gives back the
    buffer, sample for sample, with its rate. *)
Theorem reverse_reverse (y : ndarray) (sr : Z) :
  (r <- reverse h (PTuple y sr) false ;; reverse h r false)
  = Ok (PTuple y sr).
Proof.
  unfold reverse. cbn. now rewrite rev_involutive.
Qed.



End ReverseCut.

(** ** Fades *)

Lemma np_linspace_length (a b : R) (n : Z) (c : ndarray) :
  np_linspace a b n = Ok c -> (0 <= n)%Z /\ length c = Z.to_nat n.
Proof.
  unfold np_linspace. destruct (Z.ltb_spec n 0); [discriminate |].
  destruct (Z.to_nat n) as [| [| k]]; intros [= <-]; split; try lia; try reflexivity.
  cbn [length]. now rewrite length_map, length_seq.
Qed.

Lemma np_linspace_returns (a b : R) (n : Z) :
  (0 <= n)%Z -> exists c, np_linspace a b n = Ok c /\ length c = Z.to_nat n.
Proof.
  intros Hn. unfold np_linspace. destruct (Z.ltb_spec n 0); [lia |].
  destruct (Z.to_nat n) as [| [| k]]; eexists; split; try reflexivity.
  now rewrite length_map, length_seq.
Qed.

Lemma zip_mul_length (a b : ndarray) :
  length a = length b -> length (zip_mul a b) = length a.
Proof.
  revert b. induction a as [| x a IH]; intros [| y b] Hl; simpl in *; try lia.
  now rewrite IH by lia.
Qed.

Lemma setslice_length (y v y' : ndarray) (start stop : option Z) :
  setslice y start stop v = Ok y' ->
  (fst (slice_bounds (length y) start stop)
   <= snd (slice_bounds (length y) start stop) <= length y)%nat ->
  length y' = length y.
Proof.
  unfold setslice. destruct (slice_bounds (length y) start stop) as [lo hi].
  cbn [fst snd]. intros Hset Hb.
  destruct (Nat.eqb_spec (length v) (hi - lo)) as [Hv | Hv].
  - injection Hset as <-.
    rewrite !length_app, length_firstn, length_skipn. lia.
  - destruct (Nat.eqb_spec (length v) 1); [| discriminate].
    injection Hset as <-.
    rewrite !length_app, length_firstn, repeat_length, length_skipn. lia.
Qed.

(** A fade window longer than the buffer: the slice is the whole buffer,
    shorter than the ramp, and nothing reconciles the two lengths. *)
Lemma window_longer_than_buffer (y curve : ndarray) (start stop : option Z) :
  slice_bounds (length y) start stop = (O, length y) ->
  (length y < length curve)%nat ->
  (faded <- np_multiply (getslice y start stop) curve ;;
   setslice y start stop faded)
  = if ((length y =? 0)%nat && (length curve =? 1)%nat)%bool
    then Ok [] else Raise ValueError.
Proof.
  intros Hb Hlt.
  unfold getslice, setslice. rewrite Hb.
  rewrite Nat.sub_0_r. cbn [skipn]. rewrite firstn_all.
  unfold np_multiply.
  destruct (Nat.eqb_spec (length y) (length curve)) as [He | _]; [lia |].
  destruct (Nat.eqb_spec (length y) 1) as [H1 | H1].
  - cbn [bind]. rewrite length_map.
    destruct (Nat.eqb_spec (length curve) (length y)); [lia |].
    destruct (Nat.eqb_spec (length curve) 1); [lia |].
    rewrite H1. reflexivity.
  - destruct (Nat.eqb_spec (length curve) 1) as [Hc | Hc].
    + assert (Hy : y = []) by (destruct y; [reflexivity | simpl in *; lia]).
      subst y. reflexivity.
    + cbn [bind]. now rewrite andb_false_r.
Qed.

Section Fades.

Context (h : audio_host).

Import AudioEnhancer.


End Fades.



(** A fade window that fits: the ramp has the length of the slice, the
    product is assigned back, and the buffer keeps its length. *)
Lemma window_within_buffer (y curve : ndarray) (start stop : option Z)
    (lo hi : nat) :
  slice_bounds (length y) start stop = (lo, hi) ->
  (lo <= hi <= length y)%nat ->
  length curve = (hi - lo)%nat ->
  exists y', (faded <- np_multiply (getslice y start stop) curve ;;
              setslice y start stop faded) = Ok y'
             /\ length y' = length y.
Proof.
  intros Hb Hle Hc.
  assert (Hs : length (getslice y start stop) = (hi - lo)%nat).
  { unfold getslice. rewrite Hb, length_firstn, length_skipn. lia. }
  unfold np_multiply. rewrite Hs, Hc, Nat.eqb_refl. cbn [bind].
  assert (Hz : length (zip_mul (getslice y start stop) curve) = (hi - lo)%nat).
  { rewrite zip_mul_length; lia. }
  unfold setslice. rewrite Hb, Hz, Nat.eqb_refl.
  eexists. split; [reflexivity |].
  rewrite !length_app, length_firstn, length_skipn, Hz. lia.
Qed.

(** ** The sample rate *)

Section SampleRate.

Context (h : audio_host).

Import AudioEnhancer.

Lemma fade_in_returns (y : ndarray) (sr : Z) (d : R) :
  (0 <= py_int (IZR sr * d) <= Z.of_nat (length y))%Z ->
  exists y', fade_in h (PTuple y sr) d false = Ok (PTuple y' sr)
             /\ length y' = length y.
Proof.
  intros Hn. unfold fade_in, _ensure_array. cbn [bind].
  set (n := py_int (IZR sr * d)) in *.
  destruct (np_linspace_returns 0 1 n) as [c [Hc Hlen]]; [lia |].
  rewrite Hc. cbn [bind].
  rewrite <- (bind_assoc _ (fun faded => setslice y None (Some n) faded)).
  destruct (window_within_buffer y c None (Some n) O (Z.to_nat n))
    as [y' [Hy' Hl]].
  - unfold slice_bounds, adjust_index.
    destruct (Z.ltb_spec n 0); [lia |]. f_equal. lia.
  - lia.
  - lia.
  - rewrite Hy'. cbn. eauto.
Qed.

Lemma fade_out_returns (y : ndarray) (sr : Z) (d : R) :
  (0 < py_int (IZR sr * d) <= Z.of_nat (length y))%Z ->
  exists y', fade_out h (PTuple y sr) d false = Ok (PTuple y' sr)
             /\ length y' = length y.
Proof.
  intros Hn. unfold fade_out, _ensure_array. cbn [bind].
  set (n := py_int (IZR sr * d)) in *.
  destruct (np_linspace_returns 1 0 n) as [c [Hc Hlen]]; [lia |].
  rewrite Hc. cbn [bind].
  rewrite <- (bind_assoc _ (fun faded => setslice y (Some (- n)%Z) None faded)).
  destruct (window_within_buffer y c (Some (- n)%Z) None
              (length y - Z.to_nat n) (length y))
    as [y' [Hy' Hl]].
  - unfold slice_bounds, adjust_index.
    destruct (Z.ltb_spec (- n) 0); [| lia]. f_equal. lia.
  - lia.
  - lia.
  - rewrite Hy'. cbn. eauto.
Qed.

Lemma bind_Ok_inv {A B : Type} (m : result A) (k : A -> result B) (b : B) :
  bind m k = Ok b -> exists a, m = Ok a /\ k a = Ok b.
Proof. destruct m as [a | e]; [eauto | discriminate]. Qed.


End SampleRate.


(** ** The pipeline *)

Section PipelineProps.

Context (h : audio_host).

Import Pipeline.

Lemma feeds_deterministic (v : pyval) (acts : list action) (out1 out2 : pyval) :
  feeds h v acts out1 -> feeds h v acts out2 -> out1 = out2.
Proof.
  intros H1. revert out2.
  induction H1 as [v | v name val fn res rest out Hget Hcall Htrue _ IH];
    intros out2 H2; inversion H2; subst.
  - reflexivity.
  - apply IH. congruence.
Qed.

(** The loop on a prefix that feeds [temp]: it continues on the rest from
    [temp], after logging one record for each action of the prefix. *)
Lemma for_actions_prefix (v temp : pyval) (pre rest : list action) :
  feeds h v pre temp ->
  for_actions h v (pre ++ rest)
  = (applying pre ++ fst (for_actions h temp rest),
     snd (for_actions h temp rest)).
Proof.
  induction 1 as [v | v name val fn res pre' out Hget Hcall Htrue _ IH].
  - cbn. now destruct (for_actions h v rest).
  - cbn [app for_actions]. rewrite Hget, Hcall, Htrue, IH. reflexivity.
Qed.

(** C4. [apply_multiple] applies the actions in list order, the result of
    each being the input of the next: when every action names an
    attribute and returns a true value, the result is the last value,
    and the log has one "Applying" record for each action, in order.
    When, after a prefix that was applied, an action is unknown, or its
    call returns a false value, the result is [None] whatever follows in
    the list, and the log shows that nothing after it was applied. *)
Theorem apply_multiple_in_order_fail_fast (inp : pyval) :
  (forall acts out,
      feeds h inp acts out ->
      apply_multiple h inp acts false = (applying acts, Ok out))
  /\ (forall pre temp name val rest,
         feeds h inp pre temp ->
         (getattr_self h name = None ->
          apply_multiple h inp (pre ++ (name, val) :: rest) false
          = (applying pre ++ [LogUnknown name], Ok PNone))
         /\ (forall fn res,
                getattr_self h name = Some fn ->
                fn temp val = Ok res ->
                truthy res = false ->
                apply_multiple h inp (pre ++ (name, val) :: rest) false
                = (applying pre ++ [LogApplying name val; LogFailed name],
                   Ok PNone))).
Proof.
  split.
  - intros acts out Hf. unfold apply_multiple.
    pose proof (for_actions_prefix inp out acts [] Hf) as Hp.
    rewrite app_nil_r in Hp. rewrite Hp. cbn. now rewrite app_nil_r.
  - intros pre temp name val rest Hf. split.
    + intros Hget. unfold apply_multiple.
      rewrite (for_actions_prefix inp temp pre _ Hf).
      cbn [for_actions]. rewrite Hget. reflexivity.
    + intros fn res Hget Hcall Hfalse. unfold apply_multiple.
      rewrite (for_actions_prefix inp temp pre _ Hf).
      cbn [for_actions]. rewrite Hget, Hcall, Hfalse. reflexivity.
Qed.

End PipelineProps.

(** The theorem on the buffer [[1; 2]]: [reverse] alone; [reverse], then
    a name the enhancer does not have, then [reverse]; and [reverse],
    then an attribute whose call returns [None], then [reverse]. *)
Lemma apply_multiple_in_order_fail_fast_witness :
  let x := PTuple [1; 2] 1 in
  let rv : action := ("reverse"%string, None) in
  Pipeline.apply_multiple example_audio_host x [rv] false
  = ([LogApplying "reverse" None], Ok (PTuple [2; 1] 1))
  /\ Pipeline.apply_multiple example_audio_host x
       [rv; ("bogus"%string, None); rv] false
     = ([LogApplying "reverse" None; LogUnknown "bogus"], Ok PNone)
  /\ Pipeline.apply_multiple example_audio_host x
       [rv; ("silent"%string, None); rv] false
     = ([LogApplying "reverse" None; LogApplying "silent" None;
         LogFailed "silent"], Ok PNone).
Proof.
  intros x rv.
  assert (Hrv : feeds example_audio_host x [rv] (PTuple [2; 1] 1)).
  { eapply feeds_cons; [reflexivity | reflexivity | reflexivity | apply feeds_nil]. }
  destruct (apply_multiple_in_order_fail_fast example_audio_host x) as [Hall Hfail].
  split; [| split].
  - exact (Hall [rv] _ Hrv).
  - exact (proj1 (Hfail [rv] _ "bogus"%string None [rv] Hrv) eq_refl).
  - exact (proj2 (Hfail [rv] _ "silent"%string None [rv] Hrv)
             _ PNone eq_refl eq_refl eq_refl).
Defined.

(** ** Audio/video merge: reconciling the durations *)






Lemma sync_durations_keeps (v_dur : R) (audio : AudioClip) :
  duration audio = v_dur ->
  VideoAudioMerger.sync_durations v_dur audio = Ok audio.
Proof.
  intros He. unfold VideoAudioMerger.sync_durations.
  destruct (Rlt_dec (duration audio) v_dur) as [Habs | _]; [lra |].
  destruct (Rlt_dec v_dur (duration audio)) as [Habs | _]; [lra |].
  reflexivity.
Qed.


Section Reconcile.

Context (h : video_host).

Import VideoAudioMerger.

Lemma load_audio_file_clip (audio : AudioClip) :
  is_AudioFileClip audio = true -> load_audio h (AClip audio) = Ok audio.
Proof. intros Hc. unfold load_audio. now rewrite Hc. Qed.


End Reconcile.



(** ** Failures inside the two merges *)

Lemma try_except_catches {A : Type} (body : result A) (d : A) (e : exn) :
  body = Raise e -> is_Exception e = true ->
  try_except body (fun _ => Ok d) = Ok d.
Proof. intros -> He. unfold try_except. now rewrite He. Qed.


Section Failures.

Context (h : video_host).

(** A video file that cannot be loaded: [VideoAudioMerger.merge] returns
    [None]. *)
Lemma av_merge_load_failure (p : string) (a : VideoAudioMerger.audio_input)
    (output_name : string) (save : bool) (fps : option Z) (e : exn) :
  VideoFileClip h p = Raise e -> is_Exception e = true ->
  VideoAudioMerger.merge h (VPath p) a output_name save fps = Ok MNone.
Proof.
  intros Hload He. apply (try_except_catches _ _ e); [| exact He].
  unfold VideoAudioMerger.merge_body. now rewrite Hload.
Qed.

(** An audio path that does not exist: [merge] itself raises
    [FileNotFoundError], and returns [None]. *)
Lemma av_merge_missing_audio (v : VideoClip) (p : string)
    (output_name : string) (save : bool) (fps : option Z) :
  os_path_exists h p = false ->
  VideoAudioMerger.merge h (VClip v) (VideoAudioMerger.APath p)
    output_name save fps = Ok MNone.
Proof.
  intros Hp. apply (try_except_catches _ _ FileNotFoundError); [| reflexivity].
  unfold VideoAudioMerger.merge_body, VideoAudioMerger.load_audio.
  cbn [bind]. now rewrite Hp.
Qed.

(** An encoder that fails on the concatenation: [VideoMerger.merge]
    returns [None]. *)
Lemma concat_merge_encode_failure (a b m : VideoClip) (e : exn) :
  resize h a (1280, 720)%Z = Ok a -> set_fps h a 30%Z = Ok a ->
  resize h b (1280, 720)%Z = Ok b -> set_fps h b 30%Z = Ok b ->
  concatenate_videoclips h [a; b] = Ok m ->
  write_videofile h m (VideoMerger._out h "final_merged") None
    (Some (os_path_join h (video_output_dir h) "temp_audio.m4a")) = Raise e ->
  is_Exception e = true ->
  VideoMerger.merge h (VClip a) (VClip b) 0 true = Ok MNone.
Proof.
  intros Hra Hfa Hrb Hfb Hcat Hwrite He.
  apply (try_except_catches _ _ e); [| exact He].
  unfold VideoMerger.merge_body, VideoMerger.missing, VideoMerger.load_clip,
    VideoMerger._normalize.
  cbn [bind]. rewrite Hra. cbn [bind]. rewrite Hfa. cbn [bind].
  rewrite Hrb. cbn [bind]. rewrite Hfb. cbn [bind].
  destruct (Rlt_dec 0 0) as [Habs | _]; [lra |].
  rewrite Hcat. cbn [bind]. now rewrite Hwrite.
Qed.


End Failures.


(** ** Normalize *)

Lemma Rpower10_log10 (a : R) : 0 < a -> Rpower 10 (log10 a) = a.
Proof.
  intros Ha. unfold Rpower, log10.
  replace (ln a / ln 10 * ln 10) with (ln a)
    by (field; apply Rgt_not_eq, ln_10_pos).
  now apply exp_ln.
Qed.

(** The gain of [normalize] as a factor: [10^(target/20) / (rms + 1e-6)]. *)
Lemma normalize_factor (target_db a : R) :
  0 < a ->
  Rpower 10 ((target_db - 20 * log10 a) / 20) = Rpower 10 (target_db / 20) / a.
Proof.
  intros Ha.
  replace ((target_db - 20 * log10 a) / 20)
    with (target_db / 20 + - log10 a) by lra.
  rewrite Rpower_plus, Rpower_Ropp, Rpower10_log10 by exact Ha.
  reflexivity.
Qed.

Lemma rms_eps_pos (y : ndarray) : 0 < sqrt (np_mean (np_square y)) + 1e-6.
Proof.
  pose proof (sqrt_pos (np_mean (np_square y))). lra.
Qed.

Lemma np_clip_inside (y : ndarray) :
  Forall (fun s => -1 <= s <= 1) y -> np_clip (np_scale y 1) (-1) 1 = y.
Proof.
  induction 1 as [| s y Hs _ IH]; [reflexivity |].
  unfold np_clip, np_scale in *. cbn [map]. rewrite IH. f_equal.
  rewrite Rmult_1_r. now apply clip1_inside.
Qed.

Section Normalize.

Context (h : audio_host).

Import AudioEnhancer.

Lemma normalize_value (y : ndarray) (sr : Z) (target_db : R) :
  normalize h (PTuple y sr) target_db false
  = Ok (PTuple
          (np_clip
             (np_scale y (Rpower 10 (target_db / 20)
                          / (sqrt (np_mean (np_square y)) + 1e-6)))
             (-1) 1)
          sr).
Proof.
  unfold normalize, _ensure_array, finish. cbn [bind].
  now rewrite (normalize_factor target_db _ (rms_eps_pos y)).
Qed.

(** C6, as the code has it.  A buffer that is at target, that is, whose
    samples lie in [-1, 1] and whose level [rms + 1e-6] is
    [10^(target_db/20)], is returned unchanged by [normalize]; applying
    [normalize] to it twice gives the same result as applying it once. *)
Theorem normalize_at_target (y : ndarray) (sr : Z) (target_db : R) :
  Forall (fun s => -1 <= s <= 1) y ->
  sqrt (np_mean (np_square y)) + 1e-6 = Rpower 10 (target_db / 20) ->
  normalize h (PTuple y sr) target_db false = Ok (PTuple y sr)
  /\ (r <- normalize h (PTuple y sr) target_db false ;;
      normalize h r target_db false)
     = normalize h (PTuple y sr) target_db false.
Proof.
  intros Hrange Hlevel.
  assert (Hfix : normalize h (PTuple y sr) target_db false = Ok (PTuple y sr)).
  { rewrite normalize_value, <- Hlevel.
    replace ((sqrt (np_mean (np_square y)) + 1e-6)
             / (sqrt (np_mean (np_square y)) + 1e-6)) with 1
      by (field; pose proof (rms_eps_pos y); lra).
    now rewrite np_clip_inside. }
  split; [exact Hfix |].
  rewrite Hfix. cbn [bind]. exact Hfix.
Qed.

End Normalize.

Lemma Rpower10_zero : Rpower 10 (0 / 20) = 1.
Proof. replace (0 / 20) with 0 by lra. apply Rpower_O. lra. Qed.

(** The theorem on the one-sample buffer [[0.999999]] at 0 dB: its level
    is [0.999999 + 1e-6 = 1 = 10^0]. *)
Lemma normalize_at_target_witness :
  AudioEnhancer.normalize example_audio_host
    (PTuple [999999 / 1000000] 22050) 0 false
  = Ok (PTuple [999999 / 1000000] 22050).
Proof.
  apply (normalize_at_target example_audio_host [999999 / 1000000] 22050 0).
  - constructor; [lra | constructor].
  - rewrite Rpower10_zero.
    replace (np_mean (np_square [999999 / 1000000]))
      with (999999 / 1000000 * (999999 / 1000000))
      by (unfold np_mean, np_square, np_sum; cbn; lra).
    rewrite sqrt_square by lra. lra.
Defined.

Lemma rms_of_example : sqrt (np_mean (np_square [7 / 10; 1 / 10])) = 1 / 2.
Proof.
  apply sqrt_lem_1; [| lra |].
  - unfold np_mean, np_square, np_sum. cbn. lra.
  - unfold np_mean, np_square, np_sum. cbn. lra.
Qed.

Lemma rms_below (b : R) :
  0 <= b < 1 / 5 -> sqrt (np_mean (np_square [1; b])) < 3 / 4.
Proof.
  intros Hb.
  replace (3 / 4) with (sqrt (3 / 4 * (3 / 4))) by (apply sqrt_square; lra).
  apply sqrt_lt_1_alt.
  unfold np_mean, np_square, np_sum. cbn. nra.
Qed.

(** C6 fails as stated on the buffer [[0.7; 0.1]] at 0 dB.  Its RMS is
    0.5, so the first pass scales by about 2 and clips the first sample
    to 1; the result [[1; ~0.2]] has an RMS below 0.75, so the second
    pass scales the second sample up again. *)
Lemma normalize_twice_differs :
  (r <- AudioEnhancer.normalize example_audio_host
          (PTuple [7 / 10; 1 / 10] 22050) 0 false ;;
   AudioEnhancer.normalize example_audio_host r 0 false)
  <> AudioEnhancer.normalize example_audio_host
       (PTuple [7 / 10; 1 / 10] 22050) 0 false.
Proof.
  rewrite normalize_value. cbn [bind]. rewrite normalize_value.
  rewrite Rpower10_zero, rms_of_example.
  set (f1 := 1 / (1 / 2 + 1e-6)).
  assert (Hf1 : 19 / 10 < f1 < 2).
  { unfold f1. split.
    - apply (Rmult_lt_reg_r (1 / 2 + 1e-6)); [lra |].
      replace (1 / (1 / 2 + 1e-6) * (1 / 2 + 1e-6)) with 1 by (field; lra).
      lra.
    - apply (Rmult_lt_reg_r (1 / 2 + 1e-6)); [lra |].
      replace (1 / (1 / 2 + 1e-6) * (1 / 2 + 1e-6)) with 1 by (field; lra).
      lra. }
  set (b := 1 / 10 * f1).
  assert (Hb : 19 / 100 < b < 1 / 5) by (unfold b; lra).
  assert (Hy1 : np_clip (np_scale [7 / 10; 1 / 10] f1) (-1) 1 = [1; b]).
  { unfold np_clip, np_scale. cbn [map]. fold b.
    rewrite (clip1_inside b) by lra.
    f_equal. unfold clip1, Rmin, Rmax.
    destruct (Rle_dec (7 / 10 * f1) (-1)); destruct (Rle_dec _ 1); lra. }
  rewrite Hy1.
  pose proof (rms_below b ltac:(lra)) as Hrms.
  pose proof (sqrt_pos (np_mean (np_square [1; b]))) as Hpos.
  set (rms2 := sqrt (np_mean (np_square [1; b]))) in *.
  set (f2 := 1 / (rms2 + 1e-6)).
  assert (Hf2 : 13 / 10 < f2).
  { unfold f2.
    apply (Rmult_lt_reg_r (rms2 + 1e-6)); [lra |].
    replace (1 / (rms2 + 1e-6) * (rms2 + 1e-6)) with 1 by (field; lra).
    lra. }
  unfold np_clip, np_scale. cbn [map].
  intros Heq. injection Heq as _ Hsecond.
  unfold clip1, Rmin, Rmax in Hsecond.
  destruct (Rle_dec (b * f2) (-1)); destruct (Rle_dec _ 1); nra.
Qed.

(** * Further properties of the code *)

(** ** What a fade does to the samples *)

Lemma nth_zip_mul (a b : ndarray) (i : nat) :
  length a = length b ->
  nth i (zip_mul a b) 0 = nth i a 0 * nth i b 0.
Proof.
  revert b i. induction a as [| x a IH]; intros [| y b] i Hl;
    simpl in Hl; try discriminate.
  - destruct i; cbn; lra.
  - destruct i; cbn; [reflexivity |]. apply IH. lia.
Qed.

Lemma Ok_inj {A : Type} (x y : A) : Ok x = Ok y -> x = y.
Proof. congruence. Qed.

Lemma np_linspace_nth (a b : R) (n : Z) (c : ndarray) (i : nat) :
  np_linspace a b n = Ok c ->
  (2 <= n)%Z -> (i < Z.to_nat n)%nat ->
  nth i c 0 = a + INR i * ((b - a) / INR (Z.to_nat n - 1)).
Proof.
  unfold np_linspace. destruct (Z.ltb_spec n 0); [lia |].
  intros Hc Hn Hi.
  destruct (Z.to_nat n) as [| [| k]] eqn:Hk; try lia.
  apply Ok_inj in Hc. subst c.
  rewrite (nth_indep _ 0
             ((fun j => a + INR j * ((b - a) / INR (S (S k) - 1))) O))
    by now rewrite length_map, length_seq.
  rewrite (map_nth (fun j => a + INR j * ((b - a) / INR (S (S k) - 1)))).
  now rewrite seq_nth.
Qed.

Lemma np_linspace_single (a b : R) (c : ndarray) :
  np_linspace a b 1 = Ok c -> c = [a].
Proof. cbn. now intros [= <-]. Qed.

Lemma getslice_head (y : ndarray) (n : Z) :
  (0 <= n <= Z.of_nat (length y))%Z ->
  getslice y None (Some n) = firstn (Z.to_nat n) y.
Proof.
  intros Hn. unfold getslice, slice_bounds, adjust_index.
  destruct (Z.ltb_spec n 0); [lia |].
  rewrite Z.min_l, Nat.sub_0_r by lia. reflexivity.
Qed.

Lemma setslice_head (y v : ndarray) (n : Z) :
  (0 <= n <= Z.of_nat (length y))%Z ->
  length v = Z.to_nat n ->
  setslice y None (Some n) v = Ok (v ++ skipn (Z.to_nat n) y).
Proof.
  intros Hn Hv. unfold setslice, slice_bounds, adjust_index.
  destruct (Z.ltb_spec n 0); [lia |].
  rewrite Z.min_l, Nat.sub_0_r, Hv, Nat.eqb_refl by lia. reflexivity.
Qed.

Lemma getslice_tail (y : ndarray) (n : Z) :
  (0 < n <= Z.of_nat (length y))%Z ->
  getslice y (Some (- n)%Z) None = skipn (length y - Z.to_nat n) y.
Proof.
  intros Hn. unfold getslice, slice_bounds, adjust_index.
  destruct (Z.ltb_spec (- n) 0); [| lia].
  replace (Z.to_nat (Z.max 0 (- n + Z.of_nat (length y))))
    with (length y - Z.to_nat n)%nat by lia.
  apply firstn_all2. rewrite length_skipn. lia.
Qed.

Lemma setslice_tail (y v : ndarray) (n : Z) :
  (0 < n <= Z.of_nat (length y))%Z ->
  length v = Z.to_nat n ->
  setslice y (Some (- n)%Z) None v
  = Ok (firstn (length y - Z.to_nat n) y ++ v).
Proof.
  intros Hn Hv. unfold setslice, slice_bounds, adjust_index.
  destruct (Z.ltb_spec (- n) 0); [| lia].
  replace (Z.to_nat (Z.max 0 (- n + Z.of_nat (length y))))
    with (length y - Z.to_nat n)%nat by lia.
  replace (length y - (length y - Z.to_nat n))%nat with (Z.to_nat n) by lia.
  rewrite Hv, Nat.eqb_refl.
  rewrite (skipn_all2 y) by lia. now rewrite app_nil_r.
Qed.

Lemma np_multiply_same_length (a b : ndarray) :
  length a = length b -> np_multiply a b = Ok (zip_mul a b).
Proof. intros Hl. unfold np_multiply. now rewrite Hl, Nat.eqb_refl. Qed.

Section FadeEffect.

Context (h : audio_host).

Import AudioEnhancer.

Lemma fade_in_value (y : ndarray) (sr : Z) (d : R) (c : ndarray) :
  (0 <= py_int (IZR sr * d) <= Z.of_nat (length y))%Z ->
  np_linspace 0 1 (py_int (IZR sr * d)) = Ok c ->
  fade_in h (PTuple y sr) d false
  = Ok (PTuple (zip_mul (firstn (Z.to_nat (py_int (IZR sr * d))) y) c
                ++ skipn (Z.to_nat (py_int (IZR sr * d))) y) sr).
Proof.
  intros Hn Hc. unfold fade_in, _ensure_array. cbn [bind].
  set (n := py_int (IZR sr * d)) in *.
  destruct (np_linspace_length _ _ _ _ Hc) as [_ Hlen].
  rewrite Hc. cbn [bind].
  rewrite getslice_head by exact Hn.
  rewrite np_multiply_same_length by (rewrite length_firstn; lia).
  cbn [bind].
  rewrite setslice_head; [reflexivity | exact Hn |].
  rewrite zip_mul_length; rewrite length_firstn; lia.
Qed.

Lemma fade_out_value (y : ndarray) (sr : Z) (d : R) (c : ndarray) :
  (0 < py_int (IZR sr * d) <= Z.of_nat (length y))%Z ->
  np_linspace 1 0 (py_int (IZR sr * d)) = Ok c ->
  fade_out h (PTuple y sr) d false
  = Ok (PTuple (firstn (length y - Z.to_nat (py_int (IZR sr * d))) y
                ++ zip_mul (skipn (length y - Z.to_nat (py_int (IZR sr * d))) y) c)
               sr).
Proof.
  intros Hn Hc. unfold fade_out, _ensure_array. cbn [bind].
  set (n := py_int (IZR sr * d)) in *.
  destruct (np_linspace_length _ _ _ _ Hc) as [_ Hlen].
  rewrite Hc. cbn [bind].
  rewrite getslice_tail by exact Hn.
  rewrite np_multiply_same_length by (rewrite length_skipn; lia).
  cbn [bind].
  rewrite setslice_tail; [reflexivity | exact Hn |].
  rewrite zip_mul_length; rewrite length_skipn; lia.
Qed.

(** X1. A fade-in whose window of [n = int(sr * duration)] samples fits
    in the buffer keeps the length, leaves every sample from position
    [n] on as it was and, for [n >= 2], multiplies sample [i < n] by
    [i / (n - 1)]: the first sample becomes 0 and sample [n - 1] is
    unchanged. *)
Theorem fade_in_ramp (y : ndarray) (sr : Z) (d : R) :
  let n := Z.to_nat (py_int (IZR sr * d)) in
  (2 <= py_int (IZR sr * d) <= Z.of_nat (length y))%Z ->
  exists y',
    fade_in h (PTuple y sr) d false = Ok (PTuple y' sr)
    /\ length y' = length y
    /\ (forall i, (n <= i)%nat -> nth i y' 0 = nth i y 0)
    /\ (forall i, (i < n)%nat -> nth i y' 0 = nth i y 0 * (INR i / INR (n - 1)))
    /\ nth 0 y' 0 = 0
    /\ nth (n - 1) y' 0 = nth (n - 1) y 0.
Proof.
  intros n Hn.
  destruct (np_linspace_returns 0 1 (py_int (IZR sr * d))) as [c [Hc Hlen]];
    [lia |].
  fold n in Hlen.
  assert (Hz : length (zip_mul (firstn n y) c) = n).
  { rewrite zip_mul_length; rewrite length_firstn; lia. }
  assert (Hramp : forall i, (i < n)%nat ->
            nth i (zip_mul (firstn n y) c ++ skipn n y) 0
            = nth i y 0 * (INR i / INR (n - 1))).
  { intros i Hi. rewrite app_nth1 by lia.
    rewrite nth_zip_mul by (rewrite length_firstn; lia).
    rewrite nth_firstn.
    destruct (Nat.ltb_spec i n); [| lia].
    rewrite (np_linspace_nth 0 1 _ c i Hc) by (fold n; lia).
    fold n. f_equal. lra. }
  eexists. split; [apply fade_in_value; [lia | exact Hc] |].
  fold n. repeat split.
  - rewrite length_app, Hz, length_skipn. lia.
  - intros i Hi. rewrite app_nth2 by lia.
    rewrite Hz, nth_skipn. f_equal. lia.
  - exact Hramp.
  - rewrite Hramp by lia. cbn [INR]. lra.
  - rewrite Hramp by lia.
    assert (Hpos : 0 < INR (n - 1)) by (apply lt_0_INR; lia).
    replace (INR (n - 1) / INR (n - 1)) with 1 by (field; lra). lra.
Qed.

(** X2. A fade-out whose window of [n = int(sr * duration) >= 2] samples
    fits in the buffer keeps the length, leaves every sample before the
    last [n] as it was and multiplies the [i]-th sample of the window by
    [1 - i / (n - 1)]: the window's first sample is unchanged and the
    last sample of the buffer becomes 0. *)
Theorem fade_out_ramp (y : ndarray) (sr : Z) (d : R) :
  let n := Z.to_nat (py_int (IZR sr * d)) in
  let start := (length y - n)%nat in
  (2 <= py_int (IZR sr * d) <= Z.of_nat (length y))%Z ->
  exists y',
    fade_out h (PTuple y sr) d false = Ok (PTuple y' sr)
    /\ length y' = length y
    /\ (forall i, (i < start)%nat -> nth i y' 0 = nth i y 0)
    /\ (forall i, (i < n)%nat ->
          nth (start + i) y' 0
          = nth (start + i) y 0 * (1 - INR i / INR (n - 1)))
    /\ nth start y' 0 = nth start y 0
    /\ nth (length y - 1) y' 0 = 0.
Proof.
  intros n start Hn.
  destruct (np_linspace_returns 1 0 (py_int (IZR sr * d))) as [c [Hc Hlen]];
    [lia |].
  fold n in Hlen.
  assert (Hf : length (firstn start y) = start)
    by (rewrite length_firstn; unfold start; lia).
  assert (Hs : length (skipn start y) = n)
    by (rewrite length_skipn; unfold start; lia).
  assert (Hramp : forall i, (i < n)%nat ->
            nth (start + i) (firstn start y ++ zip_mul (skipn start y) c) 0
            = nth (start + i) y 0 * (1 - INR i / INR (n - 1))).
  { intros i Hi. rewrite app_nth2 by lia.
    rewrite Hf. replace (start + i - start)%nat with i by lia.
    rewrite nth_zip_mul by lia.
    rewrite nth_skipn.
    rewrite (np_linspace_nth 1 0 _ c i Hc) by (fold n; lia).
    fold n. f_equal. lra. }
  eexists. split; [apply fade_out_value; [lia | exact Hc] |].
  fold n. fold start. repeat split.
  - rewrite length_app, Hf, zip_mul_length by lia. unfold start in *. lia.
  - intros i Hi. rewrite app_nth1 by lia.
    rewrite nth_firstn. destruct (Nat.ltb_spec i start); [reflexivity | lia].
  - exact Hramp.
  - pose proof (Hramp O ltac:(lia)) as H0.
    rewrite Nat.add_0_r in H0. rewrite H0. cbn [INR]. lra.
  - pose proof (Hramp (n - 1)%nat ltac:(lia)) as Hl.
    replace (start + (n - 1))%nat with (length y - 1)%nat in Hl
      by (unfold start; lia).
    rewrite Hl.
    assert (Hpos : 0 < INR (n - 1)) by (apply lt_0_INR; lia).
    replace (INR (n - 1) / INR (n - 1)) with 1 by (field; lra). lra.
Qed.

End FadeEffect.

Lemma py_int_two : py_int (IZR 1 * 2) = 2%Z.
Proof. replace (IZR 1 * 2) with (IZR 2) by lra. apply py_int_IZR. Qed.

(** X1 on three samples of 1 at rate 1 with a fade of 2 seconds: the
    first sample becomes 0, the two others stay 1. *)
Lemma fade_in_ramp_witness :
  exists y',
    AudioEnhancer.fade_in example_audio_host (PTuple [1; 1; 1] 1) 2 false
    = Ok (PTuple y' 1)
    /\ nth 0 y' 0 = 0 /\ nth 1 y' 0 = 1 /\ nth 2 y' 0 = 1.
Proof.
  destruct (fade_in_ramp example_audio_host [1; 1; 1] 1 2)
    as [y' [H1 [_ [Hkeep [_ [H0 Hlast]]]]]].
  { rewrite py_int_two. cbn. lia. }
  rewrite py_int_two in *.
  exists y'. split; [exact H1 |]. split; [exact H0 |]. split.
  - exact Hlast.
  - apply (Hkeep 2%nat). cbn. lia.
Defined.

(** X2 on the same buffer: the last sample becomes 0, the two others
    stay 1. *)
Lemma fade_out_ramp_witness :
  exists y',
    AudioEnhancer.fade_out example_audio_host (PTuple [1; 1; 1] 1) 2 false
    = Ok (PTuple y' 1)
    /\ nth 0 y' 0 = 1 /\ nth 1 y' 0 = 1 /\ nth 2 y' 0 = 0.
Proof.
  destruct (fade_out_ramp example_audio_host [1; 1; 1] 1 2)
    as [y' [H1 [_ [Hkeep [_ [H0 Hlast]]]]]].
  { rewrite py_int_two. cbn. lia. }
  rewrite py_int_two in *.
  exists y'. split; [exact H1 |]. split; [| split].
  - apply (Hkeep 0%nat). vm_compute. lia.
  - exact H0.
  - exact Hlast.
Defined.

Section FadeEdges.

Context (h : audio_host).

Import AudioEnhancer.

(** X3. A window of no sample ([int(sr * duration) = 0]) is not treated
    alike by the two fades: [fade_in] returns the buffer unchanged, but
    [fade_out] addresses [y[-0:]], the whole buffer, multiplies it by an
    empty ramp and raises [ValueError] on every buffer that is not
    empty. *)
Theorem fade_zero_window (y : ndarray) (sr : Z) (d : R) :
  py_int (IZR sr * d) = 0%Z ->
  fade_in h (PTuple y sr) d false = Ok (PTuple y sr)
  /\ (y <> [] -> fade_out h (PTuple y sr) d false = Raise ValueError)
  /\ (y = [] -> fade_out h (PTuple y sr) d false = Ok (PTuple [] sr)).
Proof.
  intros Hn. split; [| split].
  - rewrite (fade_in_value h y sr d []); rewrite Hn; try reflexivity.
    lia.
  - intros Hy. unfold fade_out, _ensure_array. cbn [bind]. rewrite Hn.
    cbn [np_linspace Z.ltb Z.compare Z.to_nat Z.opp bind].
    assert (Hs : getslice y (Some 0%Z) None = y).
    { unfold getslice, slice_bounds, adjust_index. cbn [Z.ltb Z.compare].
      rewrite Z.min_l by lia. cbn [Z.to_nat skipn].
      rewrite Nat.sub_0_r. apply firstn_all. }
    rewrite Hs. unfold np_multiply, setslice, slice_bounds, adjust_index.
    cbn [Z.ltb Z.compare length]. rewrite Z.min_l by lia. cbn [Z.to_nat].
    rewrite Nat.sub_0_r.
    destruct y as [| a [| b y]]; [contradiction | reflexivity | reflexivity].
  - intros ->. unfold fade_out, _ensure_array. cbn [bind]. rewrite Hn.
    reflexivity.
Qed.


End FadeEdges.

Lemma py_int_zero : py_int (IZR 22050 * 0) = 0%Z.
Proof. replace (IZR 22050 * 0) with (IZR 0) by lra. apply py_int_IZR. Qed.

(** X3 on two samples at rate 22050 with a fade of 0 seconds. *)
Lemma fade_zero_window_witness :
  AudioEnhancer.fade_in example_audio_host (PTuple [1; 1] 22050) 0 false
  = Ok (PTuple [1; 1] 22050)
  /\ AudioEnhancer.fade_out example_audio_host (PTuple [1; 1] 22050) 0 false
     = Raise ValueError.
Proof.
  destruct (fade_zero_window example_audio_host [1; 1] 22050 0 py_int_zero)
    as [Hin [Hout _]].
  split; [exact Hin | apply Hout; discriminate].
Defined.


(** ** What [cut] returns *)


Lemma adjust_index_bound (len : nat) (i : Z) : (adjust_index len i <= len)%nat.
Proof.
  unfold adjust_index. destruct (Z.ltb_spec i 0); lia.
Qed.

Section Cut.

Context (h : audio_host).

Import AudioEnhancer.



End Cut.


(** ** Levels after [normalize] and after two gains *)

Lemma np_clip_length (y : ndarray) (f : R) :
  length (np_clip (np_scale y f) (-1) 1) = length y.
Proof. unfold np_clip, np_scale. now rewrite !length_map. Qed.

Lemma np_clip_range (y : ndarray) (f : R) :
  Forall (fun s => -1 <= s <= 1) (np_clip (np_scale y f) (-1) 1).
Proof.
  unfold np_clip. apply Forall_forall. intros s Hs.
  apply in_map_iff in Hs. destruct Hs as [s0 [<- _]]. apply clip1_range.
Qed.




Lemma float_max_ge_million : 1000000 <= float_max.
Proof.
  unfold float_max.
  assert (Ha : 1 <= 2 ^ 52) by (apply pow_R1_Rle; lra).
  assert (Hi : 0 < / 2 ^ 52) by (apply Rinv_0_lt_compat; lra).
  assert (Hm : / 2 ^ 52 * 2 ^ 52 = 1) by (apply Rinv_l; lra).
  assert (Hc : / 2 ^ 52 <= 1) by nra.
  assert (Hb : 2 ^ 20 <= 2 ^ 1023) by (apply Rle_pow; [lra | lia]).
  assert (H20 : 2 ^ 20 = 1048576) by (cbn; lra).
  nra.
Qed.

(** For a target at or below 0 dB the gain of [normalize] is at most
    [10^6], whatever the buffer. *)
Lemma normalize_factor_finite (y : ndarray) (target_db : R) :
  target_db <= 0 ->
  Rpower 10 (target_db / 20) / (sqrt (np_mean (np_square y)) + 1e-6)
  <= float_max.
Proof.
  intros Ht.
  pose proof (sqrt_pos (np_mean (np_square y))) as Hrms.
  pose proof (Rpower10_pos (target_db / 20)) as Hp.
  assert (Hp1 : Rpower 10 (target_db / 20) <= 1).
  { rewrite <- (Rpower_O 10) by lra. apply Rle_Rpower; lra. }
  apply Rle_trans with 1000000; [| exact float_max_ge_million].
  set (q := sqrt (np_mean (np_square y)) + 1e-6) in *.
  assert (Hq : 1e-6 <= q) by (unfold q; lra).
  apply (Rmult_le_reg_r q); [lra |].
  replace (Rpower 10 (target_db / 20) / q * q) with (Rpower 10 (target_db / 20))
    by (field; lra).
  nra.
Qed.

Section Levels.

Context (h : audio_host).

Import AudioEnhancer.

(** X7. While the gain [10^(target_db/20) / (rms + 1e-6)] is a finite
    double, [normalize] on a pair returns a buffer of the same length
    and rate, and every sample it returns lies in [-1, 1]. *)
Theorem normalize_bounded (y : ndarray) (sr : Z) (target_db : R) :
  Rpower 10 (target_db / 20) / (sqrt (np_mean (np_square y)) + 1e-6)
  <= float_max ->
  exists y',
    normalize h (PTuple y sr) target_db false = Ok (PTuple y' sr)
    /\ length y' = length y
    /\ Forall (fun s => -1 <= s <= 1) y'.
Proof.
  intros _. eexists. split; [apply normalize_value |].
  split; [apply np_clip_length | apply np_clip_range].
Qed.

(** X8. While the gain [10^(target_db/20) / (rms + 1e-6)] is a finite
    double, a silent buffer (every sample 0, of any length) is returned
    unchanged by [normalize]: the [1e-6] added to the RMS keeps the gain
    finite, and the gain multiplies zeros. *)
Theorem normalize_silence (y : ndarray) (sr : Z) (target_db : R) :
  Rpower 10 (target_db / 20) / (sqrt (np_mean (np_square y)) + 1e-6)
  <= float_max ->
  Forall (fun s => s = 0) y ->
  normalize h (PTuple y sr) target_db false = Ok (PTuple y sr).
Proof.
  intros _ Hz. rewrite normalize_value. do 2 f_equal.
  generalize (Rpower 10 (target_db / 20)
              / (sqrt (np_mean (np_square y)) + 1e-6)).
  intros f. induction Hz as [| s y Hs _ IH]; [reflexivity |].
  unfold np_clip, np_scale in *. cbn [map]. rewrite IH. f_equal.
  subst s. rewrite Rmult_0_l. apply clip1_inside. lra.
Qed.


(** X10. Gains add in decibels where nothing overflows and nothing is
    clipped in between: while [10^(a/20)] and [10^(b/20)] are finite
    doubles, after [increase_volume] by [a] and then by [b], a sample
    whose intermediate value stayed within [-1, 1] equals the sample
    times [10^((a+b)/20)], clipped to [-1, 1]. *)
Theorem volume_gains_add (y : ndarray) (sr : Z) (a b : R) :
  Rpower 10 (a / 20) <= float_max ->
  Rpower 10 (b / 20) <= float_max ->
  exists y1 y2,
    increase_volume h (PTuple y sr) a false = Ok (PTuple y1 sr)
    /\ increase_volume h (PTuple y1 sr) b false = Ok (PTuple y2 sr)
    /\ forall i, (i < length y)%nat ->
         let s := nth i y 0 in
         -1 <= s * Rpower 10 (a / 20) <= 1 ->
         nth i y2 0 = Rmin (Rmax (s * Rpower 10 ((a + b) / 20)) (-1)) 1.
Proof.
  intros Ha Hb.
  set (fa := Rpower 10 (a / 20)).
  set (fb := Rpower 10 (b / 20)).
  exists (np_clip (np_scale y fa) (-1) 1).
  exists (np_clip (np_scale (np_clip (np_scale y fa) (-1) 1) fb) (-1) 1).
  split; [now apply increase_volume_value |].
  split; [now apply increase_volume_value |].
  intros i Hi s Hmid.
  assert (Hab : Rpower 10 ((a + b) / 20) = fa * fb).
  { unfold fa, fb. rewrite <- Rpower_plus. f_equal. lra. }
  unfold np_clip, np_scale. rewrite !map_map.
  rewrite (nth_indep _ 0
             ((fun x => clip1 (-1) 1 (clip1 (-1) 1 (x * fa) * fb)) 0))
    by now rewrite length_map.
  rewrite (map_nth (fun x => clip1 (-1) 1 (clip1 (-1) 1 (x * fa) * fb))).
  fold s. rewrite (clip1_inside (s * fa)) by exact Hmid.
  rewrite Hab. unfold clip1. f_equal. f_equal. ring.
Qed.

End Levels.

(** X7 on [[0.7; 0.1]] at 0 dB. *)
Lemma normalize_bounded_witness :
  exists y',
    AudioEnhancer.normalize example_audio_host
      (PTuple [7 / 10; 1 / 10] 22050) 0 false = Ok (PTuple y' 22050)
    /\ Forall (fun s => -1 <= s <= 1) y'.
Proof.
  destruct (normalize_bounded example_audio_host [7 / 10; 1 / 10] 22050 0)
    as [y' [H1 [_ H2]]].
  - apply normalize_factor_finite. lra.
  - exists y'. split; assumption.
Defined.

(** X8 on two zero samples, at -14 dB. *)
Lemma normalize_silence_witness :
  AudioEnhancer.normalize example_audio_host (PTuple [0; 0] 22050) (-14) false
  = Ok (PTuple [0; 0] 22050).
Proof.
  apply (normalize_silence example_audio_host [0; 0] 22050 (-14)).
  - apply normalize_factor_finite. lra.
  - repeat constructor.
Defined.



(** X10 on [[0.5]] with two gains of -6 dB: the sample is lowered by
    12 dB. *)
Lemma volume_gains_add_witness :
  exists y1 y2,
    AudioEnhancer.increase_volume example_audio_host
      (PTuple [1 / 2] 22050) (-6) false = Ok (PTuple y1 22050)
    /\ AudioEnhancer.increase_volume example_audio_host
         (PTuple y1 22050) (-6) false = Ok (PTuple y2 22050)
    /\ nth 0 y2 0 = Rmin (Rmax (1 / 2 * Rpower 10 ((-6 + -6) / 20)) (-1)) 1.
Proof.
  destruct (volume_gains_add example_audio_host [1 / 2] 22050 (-6) (-6))
    as [y1 [y2 [H1 [H2 H]]]].
  { apply pow10_nonpositive_finite. lra. }
  { apply pow10_nonpositive_finite. lra. }
  exists y1, y2. split; [exact H1 | split; [exact H2 |]].
  assert (Hp : 0 < Rpower 10 (-6 / 20) < 1).
  { split; [apply Rpower10_pos | apply Rpower10_negative; lra]. }
  apply (H O).
  - cbn. lia.
  - cbn [nth]. nra.
Defined.

(** ** More on the pipeline *)

Section PipelineMore.

Context (h : audio_host).

Import Pipeline.

(** X11. An exception raised by an action is not turned into [None]:
    after a prefix that was applied, if the call of a known action
    raises, [apply_multiple] raises the same exception, with [save] or
    without, and the log ends with the "Applying" record of that
    action. *)
Theorem apply_multiple_propagates (inp temp : pyval) (pre rest : list action)
    (name : string) (val : option R) (fn : bound_method) (e : exn)
    (save : bool) :
  feeds h inp pre temp ->
  getattr_self h name = Some fn ->
  fn temp val = Raise e ->
  apply_multiple h inp (pre ++ (name, val) :: rest) save
  = (applying pre ++ [LogApplying name val], Raise e).
Proof.
  intros Hf Hget Hcall. unfold apply_multiple.
  rewrite (for_actions_prefix h inp temp pre _ Hf).
  cbn [for_actions]. rewrite Hget, Hcall. reflexivity.
Qed.

(** Each of the eight operations, called by the pipeline on a pair,
    returns a pair with the same rate when it returns. *)
Lemma operation_keeps_rate (name : string) :
  In name operation_names ->
  exists fn,
    getattr_self h name = Some fn
    /\ forall y sr val res,
         fn (PTuple y sr) val = Ok res -> exists y', res = PTuple y' sr.
Proof.
  intros Hin. unfold operation_names in Hin. cbn [In] in Hin.
  destruct Hin as [<- | [<- | [<- | [<- | [<- | [<- | [<- | [<- | []]]]]]]]];
    (eexists; split; [reflexivity |]); intros y sr val res H.
  - unfold AudioEnhancer.increase_volume, AudioEnhancer._ensure_array in H.
    cbn [bind] in H.
    apply bind_Ok_inv in H as [f [_ H]].
    injection H as <-. eauto.
  - unfold AudioEnhancer.decrease_volume, AudioEnhancer._ensure_array in H.
    cbn [bind] in H.
    apply bind_Ok_inv in H as [f [_ H]].
    injection H as <-. eauto.
  - unfold AudioEnhancer.fade_in, AudioEnhancer._ensure_array in H.
    cbn [bind] in H.
    apply bind_Ok_inv in H as [c [_ H]].
    apply bind_Ok_inv in H as [v [_ H]].
    apply bind_Ok_inv in H as [y' [_ H]].
    injection H as <-. eauto.
  - unfold AudioEnhancer.fade_out, AudioEnhancer._ensure_array in H.
    cbn [bind] in H.
    apply bind_Ok_inv in H as [c [_ H]].
    apply bind_Ok_inv in H as [v [_ H]].
    apply bind_Ok_inv in H as [y' [_ H]].
    injection H as <-. eauto.
  - unfold AudioEnhancer.speed_change, AudioEnhancer._ensure_array in H.
    cbn [bind] in H.
    apply bind_Ok_inv in H as [y' [_ H]].
    injection H as <-. eauto.
  - destruct val; [discriminate |].
    injection H as <-. eauto.
  - injection H as <-. eauto.
  - injection H as <-. eauto.
Qed.

(** X12. A pipeline made of the eight operations only, run without
    [save] on a pair, never returns [None]: when it returns, the result
    is a pair with the rate of the input, and the log has exactly one
    "Applying" record for each action. *)
Theorem apply_multiple_keeps_rate (acts : list action) :
  Forall (fun a => In (fst a) operation_names) acts ->
  forall y sr l v,
    apply_multiple h (PTuple y sr) acts false = (l, Ok v) ->
    (exists y', v = PTuple y' sr) /\ l = applying acts.
Proof.
  intros Hall.
  assert (Hloop : forall y sr l ex,
            for_actions h (PTuple y sr) acts = (l, Ok ex) ->
            (exists y', ex = Finished (PTuple y' sr)) /\ l = applying acts).
  { induction Hall as [| [name val] acts Hname _ IH]; intros y sr l ex Hrun.
    - cbn in Hrun. injection Hrun as <- <-. split; [eauto | reflexivity].
    - cbn [fst] in Hname.
      destruct (operation_keeps_rate name Hname) as [fn [Hget Hrate]].
      cbn [for_actions] in Hrun. rewrite Hget in Hrun.
      destruct (fn (PTuple y sr) val) as [res | e] eqn:Hcall;
        [| discriminate].
      destruct (Hrate y sr val res Hcall) as [y1 ->].
      cbn [truthy] in Hrun.
      destruct (for_actions h (PTuple y1 sr) acts) as [l1 r1] eqn:Hrest.
      injection Hrun as <- ->.
      destruct (IH y1 sr l1 ex Hrest) as [Hex ->].
      split; [exact Hex | reflexivity]. }
  intros y sr l v Hrun. unfold apply_multiple in Hrun.
  destruct (for_actions h (PTuple y sr) acts) as [l0 r0] eqn:Hfor.
  injection Hrun as <- Hres.
  destruct r0 as [ex | e]; [| discriminate].
  destruct (Hloop y sr l0 ex Hfor) as [[y' ->] ->].
  cbn in Hres. injection Hres as <-.
  split; [eauto | reflexivity].
Qed.

End PipelineMore.

(** X11 on [[1; 2]]: [reverse], then [reverse] with an argument (the
    call binds [save] twice and raises [TypeError]), then [reverse]. *)
Lemma apply_multiple_propagates_witness :
  Pipeline.apply_multiple example_audio_host (PTuple [1; 2] 1)
    [("reverse"%string, None); ("reverse"%string, Some 1);
     ("reverse"%string, None)] false
  = ([LogApplying "reverse" None; LogApplying "reverse" (Some 1)],
     Raise TypeError).
Proof.
  apply (apply_multiple_propagates example_audio_host (PTuple [1; 2] 1)
           (PTuple [2; 1] 1) [("reverse"%string, None)] _ "reverse" (Some 1)
           (fun temp val =>
              match val with
              | None => AudioEnhancer.reverse example_audio_host temp false
              | Some _ => Raise TypeError
              end)).
  - eapply feeds_cons; [reflexivity | reflexivity | reflexivity | apply feeds_nil].
  - reflexivity.
  - reflexivity.
Defined.

(** X12 on [[1; 2]] at rate 22050: [reverse] then [cut] returns a pair at
    rate 22050. *)
Lemma apply_multiple_keeps_rate_witness :
  exists y',
    snd (Pipeline.apply_multiple example_audio_host (PTuple [1; 2] 22050)
           [("reverse"%string, None); ("cut"%string, None)] false)
    = Ok (PTuple y' 22050).
Proof.
  destruct (Pipeline.apply_multiple example_audio_host (PTuple [1; 2] 22050)
              [("reverse"%string, None); ("cut"%string, None)] false)
    as [l r] eqn:Hrun.
  assert (Hok : exists v, r = Ok v).
  { unfold Pipeline.apply_multiple in Hrun. cbn in Hrun.
    injection Hrun as _ <-. eauto. }
  destruct Hok as [v ->].
  destruct (apply_multiple_keeps_rate example_audio_host
              [("reverse"%string, None); ("cut"%string, None)]) with
    (y := [1; 2]) (sr := 22050%Z) (l := l) (v := v) as [[y' ->] _].
  - repeat constructor; cbn; tauto.
  - exact Hrun.
  - exists y'. reflexivity.
Defined.

(** ** More on the two merges *)

Lemma try_except_Ok_inv {A : Type} (body : result A) (d r : A) :
  try_except body (fun _ => Ok d) = Ok r -> body = Ok r \/ r = d.
Proof.
  unfold try_except. destruct body as [a | e].
  - intros [= <-]. now left.
  - destruct (is_Exception e); [intros [= <-]; now right | discriminate].
Qed.

Section MergeMore.

Context (h : video_host).


(** X14. For an audio given as an [AudioFileClip]: after the file has
    been written, a failure of [audio.close()]
    is ignored and the merge returns the output path, while a failure
    of [video.close()] makes the merge return [None] although the file
    was written. *)
Theorem merge_close_failures (video : VideoClip) (audio audio' : AudioClip)
    (output_name : string) (fps : option Z) (e : exn) :
  let final_video := set_audio video audio' in
  let output_path := os_path_join h (video_output_dir h) output_name in
  is_AudioFileClip audio = true ->
  VideoAudioMerger.sync_durations (v_duration video) audio = Ok audio' ->
  write_videofile h final_video output_path fps None = Ok tt ->
  is_Exception e = true ->
  (video_close h video = Ok tt ->
   video_close h final_video = Ok tt ->
   audio_close h audio' = Raise e ->
   VideoAudioMerger.merge h (VClip video) (VideoAudioMerger.AClip audio)
     output_name true fps = Ok (MPath output_path))
  /\ (video_close h video = Raise e ->
      VideoAudioMerger.merge h (VClip video) (VideoAudioMerger.AClip audio)
        output_name true fps = Ok MNone).
Proof.
  intros final_video output_path Hfile Hsync Hwrite He. split.
  - intros Hv Hf Ha.
    unfold VideoAudioMerger.merge, VideoAudioMerger.merge_body.
    rewrite load_audio_file_clip by exact Hfile.
    cbn [bind]. rewrite Hsync. cbn [bind].
    fold final_video. fold output_path.
    rewrite Hwrite. cbn [bind]. rewrite Hv. cbn [bind].
    rewrite Ha. unfold try_except at 2. rewrite He. cbn [bind].
    rewrite Hf. reflexivity.
  - intros Hv.
    apply (try_except_catches _ _ e); [| exact He].
    unfold VideoAudioMerger.merge_body.
    rewrite load_audio_file_clip by exact Hfile.
    cbn [bind]. rewrite Hsync. cbn [bind].
    fold final_video. fold output_path.
    rewrite Hwrite. cbn [bind]. now rewrite Hv.
Qed.

(** X15. What [VideoAudioMerger.merge] can return: with [save] it is
    [None] or the path [output_dir/output_name], never a clip; without
    [save] it is [None] or a clip that carries an audio track, never a
    path. *)
Theorem av_merge_result_kind (video_input_ : video_input)
    (audio_input_ : VideoAudioMerger.audio_input) (output_name : string)
    (save : bool) (fps : option Z) (r : merged) :
  VideoAudioMerger.merge h video_input_ audio_input_ output_name save fps
  = Ok r ->
  r = MNone
  \/ (save = true
      /\ r = MPath (os_path_join h (video_output_dir h) output_name))
  \/ (save = false /\ exists c, r = MClip c /\ v_audio c <> None).
Proof.
  intros Hm. apply try_except_Ok_inv in Hm as [Hb | ->]; [| now left].
  right. unfold VideoAudioMerger.merge_body in Hb.
  apply bind_Ok_inv in Hb as [video [_ Hb]].
  apply bind_Ok_inv in Hb as [audio [_ Hb]].
  apply bind_Ok_inv in Hb as [audio' [_ Hb]].
  destruct save.
  - left. split; [reflexivity |].
    apply bind_Ok_inv in Hb as [u1 [_ Hb]].
    apply bind_Ok_inv in Hb as [u2 [_ Hb]].
    apply bind_Ok_inv in Hb as [u3 [_ Hb]].
    apply bind_Ok_inv in Hb as [u4 [_ Hb]].
    now injection Hb as <-.
  - right. split; [reflexivity |].
    injection Hb as <-. eexists. split; [reflexivity |]. discriminate.
Qed.

(** X16. What [VideoMerger.merge] can return: with [save] it is [None]
    or the one path [output_dir/final_merged.mp4], whatever the two
    inputs are; without [save] it is [None] or the clip the library's
    concatenation of two clips returned. *)
Theorem concat_merge_result_kind (intro_path main_path : video_input)
    (crossfade : R) (save : bool) (r : merged) :
  VideoMerger.merge h intro_path main_path crossfade save = Ok r ->
  r = MNone
  \/ (save = true
      /\ r = MPath (os_path_join h (video_output_dir h) "final_merged.mp4"))
  \/ (save = false
      /\ exists a b c, concatenate_videoclips h [a; b] = Ok c /\ r = MClip c).
Proof.
  intros Hm. apply try_except_Ok_inv in Hm as [Hb | ->]; [| now left].
  unfold VideoMerger.merge_body in Hb.
  destruct (VideoMerger.missing h intro_path);
    [injection Hb as <-; now left |].
  destruct (VideoMerger.missing h main_path);
    [injection Hb as <-; now left |].
  right.
  apply bind_Ok_inv in Hb as [c1 [_ Hb]].
  apply bind_Ok_inv in Hb as [c2 [_ Hb]].
  apply bind_Ok_inv in Hb as [n1 [_ Hb]].
  apply bind_Ok_inv in Hb as [n2 [_ Hb]].
  apply bind_Ok_inv in Hb as [m [Hcat Hb]].
  assert (Hcat' : exists a b, concatenate_videoclips h [a; b] = Ok m).
  { destruct (Rlt_dec 0 crossfade).
    - apply bind_Ok_inv in Hcat as [a [_ Hcat]].
      apply bind_Ok_inv in Hcat as [b [_ Hcat]]. eauto.
    - eauto. }
  destruct Hcat' as [a [b Hab]].
  destruct save.
  - left. split; [reflexivity |].
    apply bind_Ok_inv in Hb as [u1 [_ Hb]].
    apply bind_Ok_inv in Hb as [u2 [_ Hb]].
    apply bind_Ok_inv in Hb as [u3 [_ Hb]].
    apply bind_Ok_inv in Hb as [u4 [_ Hb]].
    now injection Hb as <-.
  - right. split; [reflexivity |].
    injection Hb as <-. eauto.
Qed.

(** X17. [VideoMerger.merge] returns [None] as soon as one of its two
    inputs is a path that does not exist, whatever the other input is
    and before anything is loaded. *)
Theorem concat_merge_missing_file (p : string) (other : video_input)
    (crossfade : R) (save : bool) :
  os_path_exists h p = false ->
  VideoMerger.merge h (VPath p) other crossfade save = Ok MNone
  /\ VideoMerger.merge h other (VPath p) crossfade save = Ok MNone.
Proof.
  intros Hp. unfold VideoMerger.merge, VideoMerger.merge_body.
  split.
  - cbn [VideoMerger.missing]. rewrite Hp. reflexivity.
  - destruct (VideoMerger.missing h other); [reflexivity |].
    cbn [VideoMerger.missing]. rewrite Hp. reflexivity.
Qed.

End MergeMore.


(** X14 with a library whose [audio.close()] raises [OSError]: the merge
    of a one-second video and a one-second audio file returns the
    path. *)
Lemma merge_close_failures_witness :
  VideoAudioMerger.merge failing_close_host (VClip one_second_video)
    (VideoAudioMerger.AClip (AudioFile "a.wav" 1)) "out.mp4" true None
  = Ok (MPath "output_videos/out.mp4").
Proof.
  apply (proj1 (merge_close_failures failing_close_host one_second_video
                  (AudioFile "a.wav" 1) (AudioFile "a.wav" 1) "out.mp4" None
                  OSError eq_refl
                  (sync_durations_keeps 1 (AudioFile "a.wav" 1) eq_refl)
                  eq_refl eq_refl));
    reflexivity.
Defined.

(** X15 on a one-second video and a one-second audio file: saved, the
    merge returns the path [output_videos/out.mp4]; not saved, it
    returns the video with the audio file attached. *)
Lemma av_merge_result_kind_witness :
  let a := AudioFile "a.wav" 1 in
  (MPath "output_videos/out.mp4" = MNone
   \/ (true = true
       /\ MPath "output_videos/out.mp4" = MPath "output_videos/out.mp4")
   \/ (true = false
       /\ exists c, MPath "output_videos/out.mp4" = MClip c
                    /\ v_audio c <> None))
  /\ (MClip (set_audio one_second_video a) = MNone
      \/ (false = true
          /\ MClip (set_audio one_second_video a)
             = MPath "output_videos/out.mp4")
      \/ (false = false
          /\ exists c, MClip (set_audio one_second_video a) = MClip c
                       /\ v_audio c <> None)).
Proof.
  intros a.
  assert (Hsync : VideoAudioMerger.sync_durations 1 a = Ok a)
    by (apply sync_durations_keeps; reflexivity).
  split.
  - apply (av_merge_result_kind example_video_host (VClip one_second_video)
             (VideoAudioMerger.AClip a) "out.mp4" true None).
    unfold VideoAudioMerger.merge, VideoAudioMerger.merge_body,
      VideoAudioMerger.load_audio.
    cbn [is_AudioFileClip a bind v_duration one_second_video].
    fold a. rewrite Hsync. reflexivity.
  - apply (av_merge_result_kind example_video_host (VClip one_second_video)
             (VideoAudioMerger.AClip a) "out.mp4" false None).
    unfold VideoAudioMerger.merge, VideoAudioMerger.merge_body,
      VideoAudioMerger.load_audio.
    cbn [is_AudioFileClip a bind v_duration one_second_video].
    fold a. rewrite Hsync. reflexivity.
Defined.

(** X16 on two one-second clips, saved: the path is
    [merged_videos/final_merged.mp4]. *)
Lemma concat_merge_result_kind_witness :
  MPath "merged_videos/final_merged.mp4" = MNone
  \/ (true = true
      /\ MPath "merged_videos/final_merged.mp4"
         = MPath "merged_videos/final_merged.mp4")
  \/ (true = false
      /\ exists a b c,
           concatenate_videoclips empty_disk_host [a; b] = Ok c
           /\ MPath "merged_videos/final_merged.mp4" = MClip c).
Proof.
  apply (concat_merge_result_kind empty_disk_host (VClip one_second_video)
           (VClip one_second_video) 0 true).
  unfold VideoMerger.merge, VideoMerger.merge_body. cbn.
  destruct (Rlt_dec 0 0) as [Habs | _]; [lra | reflexivity].
Defined.

(** X17 on a disk without files. *)
Lemma concat_merge_missing_file_witness :
  VideoMerger.merge empty_disk_host (VPath "intro.mp4")
    (VClip one_second_video) 0 false = Ok MNone
  /\ VideoMerger.merge empty_disk_host (VClip one_second_video)
       (VPath "intro.mp4") 0 false = Ok MNone.
Proof.
  apply (concat_merge_missing_file empty_disk_host "intro.mp4"
           (VClip one_second_video) 0 false).
  reflexivity.
Defined.

(** ** Fades of one sample, and fades under reversal *)

Lemma zip_mul_rev (a b : ndarray) :
  length a = length b -> rev (zip_mul a b) = zip_mul (rev a) (rev b).
Proof.
  revert b. induction a as [| x a IH]; intros [| y b] Hl;
    simpl in Hl; try discriminate; [reflexivity |].
  cbn [zip_mul rev]. rewrite IH by lia.
  assert (Hr : length (rev a) = length (rev b))
    by (rewrite !length_rev; lia).
  clear IH Hl. revert Hr. generalize (rev a) (rev b).
  intros u. induction u as [| p u IHu]; intros [| q v] Hr;
    simpl in Hr; try discriminate; [reflexivity |].
  cbn [zip_mul app]. now rewrite IHu by lia.
Qed.

(** The falling ramp is the rising ramp read backwards. *)
Lemma np_linspace_reversed (n : Z) (up down : ndarray) :
  np_linspace 0 1 n = Ok up ->
  np_linspace 1 0 n = Ok down ->
  (2 <= n)%Z ->
  rev up = down.
Proof.
  intros Hup Hdown Hn.
  destruct (np_linspace_length _ _ _ _ Hup) as [_ Hlu].
  destruct (np_linspace_length _ _ _ _ Hdown) as [_ Hld].
  apply (nth_ext _ _ 0 0); [rewrite length_rev; lia |].
  intros i Hi. rewrite length_rev in Hi.
  rewrite rev_nth by exact Hi.
  rewrite (np_linspace_nth 0 1 n up _ Hup) by lia.
  rewrite (np_linspace_nth 1 0 n down _ Hdown) by lia.
  rewrite Hlu.
  assert (Hpos : 0 < INR (Z.to_nat n - 1)) by (apply lt_0_INR; lia).
  replace (Z.to_nat n - S i)%nat with (Z.to_nat n - 1 - i)%nat by lia.
  rewrite minus_INR by lia. field. lra.
Qed.

Section FadeSymmetry.

Context (h : audio_host).

Import AudioEnhancer.

Lemma reverse_value (y : ndarray) (sr : Z) :
  reverse h (PTuple y sr) false = Ok (PTuple (rev y) sr).
Proof. reflexivity. Qed.

(** X19. With a window of exactly one sample the two fades differ: the
    ramp of [fade_in] is [[0]], so the first sample is silenced, while
    the ramp of [fade_out] is [[1]], so the buffer comes back
    unchanged. *)
Theorem fade_one_sample_window (s : R) (t : ndarray) (sr : Z) (d : R) :
  py_int (IZR sr * d) = 1%Z ->
  fade_in h (PTuple (s :: t) sr) d false = Ok (PTuple (0 :: t) sr)
  /\ fade_out h (PTuple (s :: t) sr) d false = Ok (PTuple (s :: t) sr).
Proof.
  intros Hn. split.
  - rewrite (fade_in_value h (s :: t) sr d [0]); rewrite Hn;
      [| cbn [length]; lia | reflexivity].
    change (Z.to_nat 1) with 1%nat. cbn [firstn skipn zip_mul app].
    replace (s * 0) with 0 by lra. reflexivity.
  - rewrite (fade_out_value h (s :: t) sr d [1]); rewrite Hn;
      [| cbn [length]; lia | reflexivity].
    do 2 f_equal.
    replace (length (s :: t) - Z.to_nat 1)%nat with (length t)
      by (cbn [length]; lia).
    assert (Hlast : exists x, skipn (length t) (s :: t) = [x]).
    { assert (Hl : length (skipn (length t) (s :: t)) = 1%nat)
        by (rewrite length_skipn; cbn [length]; lia).
      destruct (skipn (length t) (s :: t)) as [| x [| x' r]];
        simpl in Hl; try lia. eauto. }
    destruct Hlast as [x Hx].
    rewrite <- (firstn_skipn (length t) (s :: t)) at 3.
    rewrite Hx. cbn [zip_mul]. replace (x * 1) with x by lra. reflexivity.
Qed.

(** X20. For a window of [n >= 2] samples that fits in the buffer, fading
    out is fading in on the reversed buffer, reversed: [fade_out(y)] is
    [reverse(fade_in(reverse(y)))]. *)
Theorem fade_out_is_reversed_fade_in (y : ndarray) (sr : Z) (d : R) :
  (2 <= py_int (IZR sr * d) <= Z.of_nat (length y))%Z ->
  fade_out h (PTuple y sr) d false
  = (r1 <- reverse h (PTuple y sr) false ;;
     r2 <- fade_in h r1 d false ;;
     reverse h r2 false).
Proof.
  intros Hn.
  destruct (np_linspace_returns 0 1 (py_int (IZR sr * d))) as [up [Hup Hlu]];
    [lia |].
  destruct (np_linspace_returns 1 0 (py_int (IZR sr * d)))
    as [down [Hdown Hld]]; [lia |].
  rewrite (fade_out_value h y sr d down) by (lia || exact Hdown).
  rewrite reverse_value. cbn [bind].
  rewrite (fade_in_value h (rev y) sr d up)
    by (rewrite ?length_rev; lia || exact Hup).
  cbn [bind]. rewrite reverse_value.
  set (n := Z.to_nat (py_int (IZR sr * d))) in *.
  do 2 f_equal.
  rewrite rev_app_distr.
  rewrite zip_mul_rev by (rewrite length_firstn, length_rev; lia).
  rewrite (np_linspace_reversed _ up down Hup Hdown) by lia.
  rewrite firstn_rev, skipn_rev, !rev_involutive.
  reflexivity.
Qed.

End FadeSymmetry.

Lemma py_int_one : py_int (IZR 1 * 1) = 1%Z.
Proof. replace (IZR 1 * 1) with (IZR 1) by lra. apply py_int_IZR. Qed.

(** X19 on [[1; 1]] at rate 1 with a fade of 1 second. *)
Lemma fade_one_sample_window_witness :
  AudioEnhancer.fade_in example_audio_host (PTuple [1; 1] 1) 1 false
  = Ok (PTuple [0; 1] 1)
  /\ AudioEnhancer.fade_out example_audio_host (PTuple [1; 1] 1) 1 false
     = Ok (PTuple [1; 1] 1).
Proof.
  exact (fade_one_sample_window example_audio_host 1 [1] 1 1 py_int_one).
Defined.

(** X20 on three samples at rate 1 with a fade of 2 seconds. *)
Lemma fade_out_is_reversed_fade_in_witness :
  AudioEnhancer.fade_out example_audio_host (PTuple [1; 1; 1] 1) 2 false
  = (r1 <- AudioEnhancer.reverse example_audio_host (PTuple [1; 1; 1] 1) false ;;
     r2 <- AudioEnhancer.fade_in example_audio_host r1 2 false ;;
     AudioEnhancer.reverse example_audio_host r2 false).
Proof.
  apply (fade_out_is_reversed_fade_in example_audio_host [1; 1; 1] 1 2).
  rewrite py_int_two. cbn. lia.
Defined.

(** ** The menu layer *)

Lemma in_list_In (s : string) (l : list string) :
  in_list s l = true -> In s l.
Proof.
  unfold in_list. intros H. apply existsb_exists in H as [x [Hx He]].
  apply String.eqb_eq in He. now subst x.
Qed.

(** X21. A path returned by [get_valid_path] was typed on some line
    (cleaned of quotes and blanks), exists, has an extension of the
    allow-list of the expected type, and was confirmed by an answer
    [y] on the next line; the lines after that answer are left to be
    read. *)
Theorem get_valid_path_validates (c : console_host) (expected_type : string)
    (inputs : list string) (p : string) (rest : list string) :
  get_valid_path c expected_type inputs = Some (p, rest) ->
  app_path_exists c p = true
  /\ (expected_type = "audio"%string -> In (ext_lower c p) audio_exts)
  /\ (expected_type = "video"%string -> In (ext_lower c p) video_exts)
  /\ exists before line answer,
       inputs = before ++ line :: answer :: rest
       /\ p = strip_quotes c line
       /\ strip_lower c answer = "y"%string.
Proof.
  assert (Hgen : forall n inputs,
            (length inputs <= n)%nat ->
            get_valid_path c expected_type inputs = Some (p, rest) ->
            app_path_exists c p = true
            /\ (expected_type = "audio"%string -> In (ext_lower c p) audio_exts)
            /\ (expected_type = "video"%string -> In (ext_lower c p) video_exts)
            /\ exists before line answer,
                 inputs = before ++ line :: answer :: rest
                 /\ p = strip_quotes c line
                 /\ strip_lower c answer = "y"%string).
  { clear inputs. induction n as [| n IH]; intros inputs Hlen Hget.
    - destruct inputs; [discriminate | simpl in Hlen; lia].
    - destruct inputs as [| line rest0]; [discriminate |].
      cbn [get_valid_path] in Hget. simpl in Hlen.
      assert (Hskip : forall tail skipped,
                line :: rest0 = skipped ++ tail ->
                (length tail <= n)%nat ->
                get_valid_path c expected_type tail = Some (p, rest) ->
                app_path_exists c p = true
                /\ (expected_type = "audio"%string
                    -> In (ext_lower c p) audio_exts)
                /\ (expected_type = "video"%string
                    -> In (ext_lower c p) video_exts)
                /\ exists before line' answer,
                     line :: rest0 = before ++ line' :: answer :: rest
                     /\ p = strip_quotes c line'
                     /\ strip_lower c answer = "y"%string).
      { intros tail skipped Heq Hl Hg.
        destruct (IH tail Hl Hg) as [He [Ha [Hv [b [l' [a [Hin [Hp Hy]]]]]]]].
        repeat split; try assumption.
        exists (skipped ++ b), l', a.
        rewrite Heq, Hin, <- app_assoc. auto. }
      destruct (app_path_exists c (strip_quotes c line)) eqn:Hex;
        cbn [negb] in Hget;
        [| apply (Hskip rest0 [line]); [reflexivity | lia | exact Hget]].
      destruct (String.eqb expected_type "audio"
                && negb (in_list (ext_lower c (strip_quotes c line)) audio_exts))%bool
        eqn:Haud;
        [apply (Hskip rest0 [line]); [reflexivity | lia | exact Hget] |].
      destruct (String.eqb expected_type "video"
                && negb (in_list (ext_lower c (strip_quotes c line)) video_exts))%bool
        eqn:Hvid;
        [apply (Hskip rest0 [line]); [reflexivity | lia | exact Hget] |].
      destruct rest0 as [| answer rest']; [discriminate |].
      destruct (String.eqb (strip_lower c answer) "y") eqn:Hy.
      + injection Hget as <- <-.
        split; [exact Hex |]. split; [| split].
        * intros ->. rewrite String.eqb_refl in Haud. cbn [andb] in Haud.
          apply in_list_In. now apply negb_false_iff.
        * intros ->. rewrite String.eqb_refl in Hvid. cbn [andb] in Hvid.
          apply in_list_In. now apply negb_false_iff.
        * exists [], line, answer. repeat split.
          now apply String.eqb_eq.
      + apply (Hskip rest' [line; answer]);
          [reflexivity | simpl in Hlen; lia | exact Hget]. }
  apply (Hgen (length inputs) inputs). lia.
Qed.

Section MenuFade.

Context (h : audio_host).

Import AudioEnhancer.

Lemma py_int_double (sr : Z) : py_int (IZR sr * 2) = (2 * sr)%Z.
Proof.
  replace (IZR sr * 2) with (IZR (2 * sr)) by (rewrite mult_IZR; lra).
  apply py_int_IZR.
Qed.

(** X22. Menu choice 4 (fade in, then fade out, both of 2 seconds) on a
    file shorter than 2 seconds, that is, with fewer than [2 * sr]
    samples: the fade-in raises [ValueError], nothing is written, and
    the menu reports the error. *)
Theorem menu_fade_short_audio (speed : result R) (p : string) (y : ndarray)
    (sr : Z) :
  librosa_load h p = Ok (y, sr) ->
  (Z.of_nat (length y) < 2 * sr)%Z ->
  audio_menu_step h speed "4" p = Ok (Reported ValueError).
Proof.
  intros Hload Hshort.
  unfold audio_menu_step.
  assert (Hbody : audio_menu_try h speed "4" p = Raise ValueError).
  { unfold audio_menu_try. cbn [String.eqb Ascii.eqb Bool.eqb].
    unfold fade_in at 1. unfold _ensure_array, _load. rewrite Hload.
    cbn [bind]. rewrite py_int_double.
    destruct (np_linspace_returns 0 1 (2 * sr)) as [c [Hc Hlen]]; [lia |].
    rewrite Hc. cbn [bind].
    rewrite <- (bind_assoc _ (setslice y None (Some (2 * sr)%Z))).
    rewrite window_longer_than_buffer.
    - assert (Hc1 : (length c =? 1)%nat = false)
        by (apply Nat.eqb_neq; lia).
      rewrite Hc1, andb_false_r. reflexivity.
    - unfold slice_bounds, adjust_index.
      destruct (Z.ltb_spec (2 * sr) 0); [lia |]. f_equal. lia.
    - lia. }
  rewrite Hbody. reflexivity.
Qed.

Lemma fade_in_of_path (p : string) (y : ndarray) (sr : Z) (d : R) :
  librosa_load h p = Ok (y, sr) ->
  fade_in h (PStr p) d false = fade_in h (PTuple y sr) d false.
Proof.
  intros Hload. unfold fade_in, _ensure_array, _load. rewrite Hload.
  reflexivity.
Qed.

Lemma fade_out_saved (y y' : ndarray) (sr : Z) (d : R) :
  fade_out h (PTuple y sr) d false = Ok (PTuple y' sr) ->
  fade_out h (PTuple y sr) d true
  = (_ <- sf_write h (_out h "audio" ("fadeout" ++ str_float h d)) y' sr ;;
     Ok (PStr (_out h "audio" ("fadeout" ++ str_float h d)))).
Proof.
  unfold fade_out, _ensure_array, finish, _save, name_of. cbn [bind].
  destruct (np_linspace 1 0 (py_int (IZR sr * d))) as [c | e];
    [| discriminate].
  cbn [bind].
  destruct (np_multiply (getslice y (Some (- py_int (IZR sr * d))%Z) None) c)
    as [v | e]; [| discriminate].
  cbn [bind].
  destruct (setslice y (Some (- py_int (IZR sr * d))%Z) None v) as [y2 | e];
    [| discriminate].
  cbn [bind]. intros [= <-]. reflexivity.
Qed.

(** X23. Menu choice 4 on a file of at least 2 seconds that can be
    written: the file saved is named after the fixed base ["audio"]
    ([audio_fadeout<2.0>.wav] in the output directory), not after the
    input file, because the fade-out receives the pair returned by the
    fade-in and not the path. *)
Theorem menu_fade_output_name (speed : result R) (p : string) (y : ndarray)
    (sr : Z) :
  librosa_load h p = Ok (y, sr) ->
  (0 < 2 * sr <= Z.of_nat (length y))%Z ->
  (forall path y', sf_write h path y' sr = Ok tt) ->
  audio_menu_step h speed "4" p
  = Ok (Saved (PStr (_out h "audio" ("fadeout" ++ str_float h 2)))).
Proof.
  intros Hload Hfit Hwrite.
  unfold audio_menu_step, audio_menu_try.
  cbn [String.eqb Ascii.eqb Bool.eqb].
  rewrite (fade_in_of_path p y sr 2 Hload).
  destruct (fade_in_returns h y sr 2) as [y1 [H1 Hl1]];
    [rewrite py_int_double; lia |].
  rewrite H1. cbn [bind].
  destruct (fade_out_returns h y1 sr 2) as [y2 [H2 _]];
    [rewrite py_int_double; lia |].
  rewrite (fade_out_saved y1 y2 sr 2 H2), Hwrite.
  reflexivity.
Qed.

End MenuFade.

(** X21 on a console where the user types a missing file, then a text
    file, then [song.mp3] and refuses it, then [song.mp3] and
    confirms. *)
Lemma get_valid_path_validates_witness :
  app_path_exists example_console "song.mp3" = true
  /\ In (ext_lower example_console "song.mp3") audio_exts.
Proof.
  destruct (get_valid_path_validates example_console "audio"
              ["nothing.mp3"; "notes.txt"; "song.mp3"; "n"; "song.mp3"; "y";
               "later"]%string
              "song.mp3" ["later"%string] eq_refl)
    as [Hex [Haud _]].
  split; [exact Hex | exact (Haud eq_refl)].
Defined.

(** X22 on ["short.wav"]: three samples at rate 2, less than 2 seconds. *)
Lemma menu_fade_short_audio_witness :
  audio_menu_step loading_audio_host (Ok 1) "4" "short.wav"
  = Ok (Reported ValueError).
Proof.
  apply (menu_fade_short_audio loading_audio_host (Ok 1) "short.wav"
           [1; 1; 1] 2).
  - reflexivity.
  - cbn. lia.
Defined.

(** X23 on ["long.wav"]: three samples at rate 1, more than 2 seconds. *)
Lemma menu_fade_output_name_witness :
  audio_menu_step loading_audio_host (Ok 1) "4" "long.wav"
  = Ok (Saved (PStr "enhanced_audio/audio_fadeout2.0.wav")).
Proof.
  apply (menu_fade_output_name loading_audio_host (Ok 1) "long.wav"
           [1; 1; 1] 1).
  - reflexivity.
  - cbn. lia.
  - reflexivity.
Defined.

(** ** Audio inputs the merge cannot use *)

Section BadAudio.

Context (h : video_host).

(** X18. [VideoAudioMerger.merge] returns [None], with [save] or
    without, when the audio is given as a path that does not exist
    ([FileNotFoundError] is raised before anything is read) and when it
    is given as a pair whose rate is 0 (the duration of the array clip
    divides by the rate). *)
Theorem av_merge_unusable_audio (video : VideoClip) (output_name : string)
    (save : bool) (fps : option Z) :
  (forall p, os_path_exists h p = false ->
             VideoAudioMerger.merge h (VClip video) (VideoAudioMerger.APath p)
               output_name save fps = Ok MNone)
  /\ (forall y,
         VideoAudioMerger.merge h (VClip video) (VideoAudioMerger.ATuple y 0)
           output_name save fps = Ok MNone).
Proof.
  split.
  - intros p Hp.
    apply (try_except_catches _ _ FileNotFoundError); [| reflexivity].
    unfold VideoAudioMerger.merge_body, VideoAudioMerger.load_audio.
    cbn [bind]. now rewrite Hp.
  - intros y.
    apply (try_except_catches _ _ ZeroDivisionError); reflexivity.
Qed.

End BadAudio.

(** X18 on a disk without files. *)
Lemma av_merge_unusable_audio_witness :
  VideoAudioMerger.merge empty_disk_host (VClip one_second_video)
    (VideoAudioMerger.APath "audio.mp3") "out.mp4" true None = Ok MNone.
Proof.
  apply (proj1 (av_merge_unusable_audio empty_disk_host one_second_video
                  "out.mp4" true None)).
  reflexivity.
Defined.
